(** * dellemc_powermax_host: host (initiator group) reconciliation

    A shallow embedding of [plugins/modules/dellemc_powermax_host.py]
    (class [PowerMaxHost]) and the properties of its flag normaliser,
    initiator differ and orchestration.

    Conventions of the embedding:
    - Python dictionaries that are only built and compared ([host_flag_dict])
      are [gmap string _]; the YAML dictionary [host_flags], which the code
      iterates over, is an association list in insertion order;
    - Python sets of initiators are [gset string];
    - the PyU4V SDK ([self.provisioning]) and [utils.close_connection] are a
      parameter: an arbitrary transition function of an arbitrary remote
      state, answering each request by a value or by raising;
    - strings are byte strings.  [lower] is [str.lower] on ASCII strings,
      where the two agree exactly; on a string with a character outside
      ASCII Python folds more than [lower] does, so every statement that
      depends on how an arbitrary key is folded assumes [ascii_only] keys
      (the nine names of the module are ASCII and lower case, and no string
      outside ASCII is folded to one of them);
    - [list(set(...))] has no specified order: [elements] stands for one
      enumeration without duplicates, and no statement depends on which. *)

From stdpp Require Import gmap strings list fin_maps sets.
From Stdlib Require Import Ascii String.

Local Open Scope string_scope.

(* ===================================================================== *)
(** ** Python values and strings *)
(* ===================================================================== *)

(** The values a YAML dictionary may carry for a flag. *)
Inductive pyval : Type :=
| PyNone
| PyBool (b : bool)
| PyInt (z : Z)
| PyStr (s : string).

(** [v is True], [v is False]: identity with the boolean singletons. *)
Definition is_True (v : pyval) : bool :=
  match v with PyBool true => true | _ => false end.

Definition is_False (v : pyval) : bool :=
  match v with PyBool false => true | _ => false end.

(** [v in [s1, s2, ...]] for a list of string literals: [==] between a
    string and a boolean, an integer or [None] is false. *)
Definition py_in (v : pyval) (l : list string) : bool :=
  match v with
  | PyStr s => bool_decide (s ∈ l)
  | _ => false
  end.

(** The dictionary [host_flags] of the playbook, in insertion order. *)
Definition pydict : Type := list (string * pyval).

Fixpoint py_get (k : string) (d : pydict) : option pyval :=
  match d with
  | [] => None
  | (k', v) :: d' => if bool_decide (k' = k) then Some v else py_get k d'
  end.

Definition py_keys (d : pydict) : list string := d.*1.

(** [str.lower], exact on ASCII strings: the letters A to Z are folded,
    every other byte is kept.  [ascii_only] is the domain on which the code
    and this definition agree. *)
Definition ascii_only (s : string) : Prop :=
  Forall (λ c, (nat_of_ascii c < 128)%nat) (list_ascii_of_string s).

#[global] Instance ascii_only_dec (s : string) : Decision (ascii_only s).
Proof. unfold ascii_only. apply _. Defined.

Definition lower_ascii (c : ascii) : ascii :=
  let n := nat_of_ascii c in
  if (65 <=? n)%nat && (n <=? 90)%nat then ascii_of_nat (n + 32) else c.

Fixpoint lower (s : string) : string :=
  match s with
  | EmptyString => EmptyString
  | String c s' => String (lower_ascii c) (lower s')
  end.

(** [s.split(sep)] for a one-character separator: never the empty list. *)
Fixpoint split_on (sep : ascii) (s : string) : list string :=
  match s with
  | EmptyString => [EmptyString]
  | String c s' =>
      if Ascii.eqb c sep then EmptyString :: split_on sep s'
      else match split_on sep s' with
           | [] => [String c EmptyString]
           | w :: ws => String c w :: ws
           end
  end.

Definition newline : ascii := ascii_of_nat 10.

(** Does a [")"] occur before the end of the line?  This is when the lazy
    [.*?\)] succeeds right after an opening parenthesis ([.] matches every
    character but the newline). *)
Fixpoint has_close (s : string) : bool :=
  match s with
  | EmptyString => false
  | String c s' =>
      if Ascii.eqb c ")" then true
      else if Ascii.eqb c newline then false
      else has_close s'
  end.

(** [re.sub(r'\(.*?\)', '', s)]: scanning from the left, an opening
    parenthesis that has a closing one on its line is deleted together with
    everything up to the first closing parenthesis; [inside] says that the
    scan is within such a match. *)
Fixpoint re_sub_from (inside : bool) (s : string) : string :=
  match s with
  | EmptyString => EmptyString
  | String c s' =>
      if inside then
        if Ascii.eqb c ")" then re_sub_from false s' else re_sub_from true s'
      else if Ascii.eqb c "(" && has_close s' then re_sub_from true s'
      else String c (re_sub_from false s')
  end.

Definition re_sub_annotation (s : string) : string := re_sub_from false s.

(* ===================================================================== *)
(** ** The flag payload *)
(* ===================================================================== *)

(** A value of the payload dictionary: [{'enabled': _, 'override': _}] for
    a port flag, a bare boolean for [consistent_lun]. *)
Inductive flag_value : Type :=
| PortFlag (enabled override : bool)
| LunFlag (b : bool).

#[global] Instance flag_value_eq_dec : EqDecision flag_value.
Proof. solve_decision. Defined.

(** The three states of a port flag, as the code writes them. *)
Definition Enabled : flag_value := PortFlag true true.
Definition Disabled : flag_value := PortFlag false true.
Definition Default : flag_value := PortFlag false false.

(** [self.host_flags_list]. *)
Definition host_flags_list : list string :=
  [ "volume_set_addressing"; "environ_set"; "disable_q_reset_on_ua";
    "openvms"; "avoid_reset_broadcast"; "scsi_3"; "spc2_protocol_version";
    "scsi_support1" ].

Definition _set_to_enable (host_flag_name : string)
    (host_flag_dict : gmap string flag_value) : gmap string flag_value :=
  <[lower host_flag_name := Enabled]> host_flag_dict.

Definition _set_to_disable (host_flag_name : string)
    (host_flag_dict : gmap string flag_value) : gmap string flag_value :=
  <[lower host_flag_name := Disabled]> host_flag_dict.

Definition _set_to_default (host_flag_name : string)
    (host_flag_dict : gmap string flag_value) : gmap string flag_value :=
  <[lower host_flag_name := Default]> host_flag_dict.

Definition _disable_consistent_lun
    (host_flag_dict : gmap string flag_value) : gmap string flag_value :=
  <["consistent_lun" := LunFlag false]> host_flag_dict.

Definition _enable_consistent_lun
    (host_flag_dict : gmap string flag_value) : gmap string flag_value :=
  <["consistent_lun" := LunFlag true]> host_flag_dict.

(** One iteration of the loop of [_create_host_flags_dict]. *)
Definition create_flag_step (received_host_flags : pydict)
    (d : gmap string flag_value) (host_flag_name : string)
    : gmap string flag_value :=
  match py_get host_flag_name received_host_flags with
  | None => _set_to_default host_flag_name d
  | Some v =>
      if py_in v ["unset"; "Unset"] then _set_to_default host_flag_name d
      else if is_False v || py_in v ["false"; "False"]
           then _set_to_disable host_flag_name d
      else _set_to_enable host_flag_name d
  end.

Definition _create_host_flags_dict (received_host_flags : pydict)
    (new_host_flags_dict : gmap string flag_value) : gmap string flag_value :=
  let d := foldl (create_flag_step received_host_flags)
                 new_host_flags_dict host_flags_list in
  match py_get "consistent_lun" received_host_flags with
  | None => _disable_consistent_lun d
  | Some v =>
      if is_False v || py_in v ["unset"; "Unset"; "false"; "False"]
      then _disable_consistent_lun d
      else _enable_consistent_lun d
  end.

(** The host dictionary returned by the SDK's [get_host]; [initiator] is
    the only key the code tests for. *)
Record host : Type := Host {
  hostId : string;
  initiator : option (list string);
  enabled_flags : string;
  disabled_flags : string;
  consistent_lun : bool
}.

Definition _create_default_host_flags_dict
    (current_flags : gmap string flag_value) : gmap string flag_value :=
  _disable_consistent_lun
    (foldl (fun d flag => _set_to_default flag d) current_flags host_flags_list).

(** The two loops of [_recreate_host_flag_dict] over a comma-separated
    report. *)
Definition report_step
    (set : string → gmap string flag_value → gmap string flag_value)
    (d : gmap string flag_value) (flag : string) : gmap string flag_value :=
  if (0 <? String.length flag)%nat then set (re_sub_annotation flag) d else d.

Definition _recreate_host_flag_dict (h : host)
    (current_flags : gmap string flag_value) : gmap string flag_value :=
  let d0 := _create_default_host_flags_dict current_flags in
  let d1 := foldl (report_step _set_to_enable) d0
                  (split_on "," (enabled_flags h)) in
  let d2 := foldl (report_step _set_to_disable) d1
                  (split_on "," (disabled_flags h)) in
  if bool_decide (consistent_lun h = false)
  then _disable_consistent_lun d2
  else _enable_consistent_lun d2.

(** One iteration of the loop of [modify_host_flags] over the keys of the
    received dictionary.  [flag] ranges over the keys, so the lookup
    succeeds; the [None] arm is not reachable. *)
Definition overlay_step (received_host_flags : pydict)
    (d : gmap string flag_value) (flag : string) : gmap string flag_value :=
  match py_get flag received_host_flags with
  | None => d
  | Some v =>
      if negb (bool_decide (flag = "consistent_lun")) then
        if is_True v || py_in v ["True"; "true"] then _set_to_enable flag d
        else if is_False v || py_in v ["false"; "False"]
             then _set_to_disable flag d
        else _set_to_default flag d
      else if is_False v || py_in v ["False"; "false"; "unset"; "Unset"]
           then _disable_consistent_lun d
      else _enable_consistent_lun d
  end.

(** The payload [new_flags_dict] that [modify_host_flags] computes from the
    baseline [current_flags]. *)
Definition overlay (received_host_flags : pydict)
    (current_flags : gmap string flag_value) : gmap string flag_value :=
  foldl (overlay_step received_host_flags) current_flags
        (py_keys received_host_flags).

(* ===================================================================== *)
(** ** The initiator differ *)
(* ===================================================================== *)

(** [list(set(...))]: Python does not specify the order of the resulting
    list (it varies with the order of insertion and the hash seed).
    [elements] stands for one enumeration without duplicates; what is
    proved of these two functions is stated by membership, [NoDup] and
    permutation, never by the order of the list. *)
Definition _get_add_initiators (existing requested : list string)
    : list string :=
  let all_inits := (existing ++ requested)%list in
  elements ((list_to_set all_inits : gset string) ∖ list_to_set existing).

Definition _get_remove_initiators (existing requested : list string)
    : list string :=
  elements ((list_to_set existing : gset string) ∩ list_to_set requested).

(* ===================================================================== *)
(** ** Module parameters, requests to the array, outcomes *)
(* ===================================================================== *)

Inductive existence : Type := present | absent.
Inductive membership : Type := present_in_host | absent_in_host.

#[global] Instance existence_eq_dec : EqDecision existence.
Proof. solve_decision. Defined.
#[global] Instance membership_eq_dec : EqDecision membership.
Proof. solve_decision. Defined.

(** [self.module.params]; [None] is an option that was not given. *)
Record params : Type := Params {
  host_name : string;
  initiators : option (list string);
  state : existence;
  initiator_state : option membership;
  host_flags : option pydict;
  new_name : option string
}.

(** Python truthiness of the optional parameters. *)
Definition nonempty_str (s : string) : bool :=
  negb (bool_decide (s = "")).

Definition truthy_str (o : option string) : bool :=
  match o with Some s => nonempty_str s | None => false end.

Definition truthy_list {A} (o : option (list A)) : bool :=
  match o with Some (_ :: _) => true | _ => false end.

(** The keyword argument of [provisioning.modify_host]. *)
Inductive host_change : Type :=
| add_init_list (l : list string)
| remove_init_list (l : list string)
| host_flag_dict (d : gmap string flag_value)
| new_name_kw (n : string).

(** The calls the module makes on the SDK and on the connection. *)
Inductive request : Type :=
| get_host_call (name : string)
| create_host_call (name : string) (initiator_list : option (list string))
    (flags : option (gmap string flag_value))
| modify_host_call (name : string) (change : host_change)
| delete_host_call (name : string)
| close_connection.

(** What a call answers: a value (only [get_host]'s is looked at, [None]
    standing for a falsy one) or an exception, kept as its [str(e)]. *)
Inductive reply : Type :=
| Returned (h : option host)
| Raised (e : string).

Definition event : Type := request * reply.

(** A failure message is either a formatted string or, where the code
    builds a tuple instead of applying [%], that tuple. *)
Inductive msg_item : Type :=
| MStr (s : string)
| MList (l : list string).

Inductive message : Type :=
| Text (s : string)
| Tuple (items : list msg_item).

(** [host_details] of the result: [{}] or what [get_host] returned. *)
Inductive details : Type :=
| EmptyDict
| Fetched (h : option host).

(** How a piece of the module ends: it returns a value, leaves through
    [fail_json] or [exit_json] (both end the process), or dies of an
    exception nobody catches. *)
Inductive outcome (A : Type) : Type :=
| Value (a : A)
| fail_json (msg : message)
| exit_json (changed : bool) (host_details : details)
| Uncaught.

Arguments Value {A} a.
Arguments fail_json {A} msg.
Arguments exit_json {A} changed host_details.
Arguments Uncaught {A}.

(** Computations over a remote state that log the calls they make. *)
Definition M (remote A : Type) : Type :=
  remote → outcome A * remote * list event.

#[global] Instance M_ret {remote} : MRet (M remote) :=
  λ A a r, (Value a, r, []).

#[global] Instance M_bind {remote} : MBind (M remote) :=
  λ A B k m r,
    match m r with
    | (Value a, r1, t1) => let '(o, r2, t2) := k a r1 in (o, r2, (t1 ++ t2)%list)
    | (fail_json msg, r1, t1) => (fail_json msg, r1, t1)
    | (exit_json c d, r1, t1) => (exit_json c d, r1, t1)
    | (Uncaught, r1, t1) => (Uncaught, r1, t1)
    end.

Definition stop {remote A} (o : outcome A) : M remote A := λ r, (o, r, []).

Section Module.
Context {remote : Type}.
Variable serve : remote → request → remote * reply.

Definition call (c : request) : M remote reply :=
  λ r, let '(r', a) := serve r c in (Value a, r', [(c, a)]).

(** [show_error_exit]: the connection exists once [__init__] is over; a
    failure to close it is logged and dropped. *)
Definition show_error_exit {A} (msg : message) : M remote A :=
  _ ← call close_connection;
  stop (fail_json msg).

Definition get_host (name : string) : M remote (option host) :=
  a ← call (get_host_call name);
  match a with
  | Returned hostFromGet => mret hostFromGet
  | Raised _ => mret None
  end.

Definition create_host (p : params) (name : string) : M remote bool :=
  let initiators :=
    match initiator_state p with
    | Some absent_in_host | None => None
    | Some present_in_host => initiators p
    end in
  let new_host_flags_dict :=
    match host_flags p with
    | Some ((_ :: _) as received_host_flags) =>
        Some (_create_host_flags_dict received_host_flags ∅)
    | _ => None
    end in
  a ← call (create_host_call name initiators new_host_flags_dict);
  match a with
  | Returned _ => mret true
  | Raised e =>
      show_error_exit
        (Text ("Create host " +:+ name +:+ " failed with error " +:+ e))
  end.

Definition existing_initiators (h : option host) : list string :=
  match h with
  | Some h => default [] (initiator h)
  | None => []
  end.

Definition add_host_initiators (name : string) (initiators : list string)
    : M remote bool :=
  h ← get_host name;
  let existing_inits := existing_initiators h in
  if negb (bool_decide (initiators = []))
     && bool_decide ((list_to_set initiators : gset string)
                       ⊆ list_to_set existing_inits)
  then mret false
  else
    let add_list := _get_add_initiators existing_inits initiators in
    if (0 <? List.length add_list)%nat then
      a ← call (modify_host_call name (add_init_list add_list));
      match a with
      | Returned _ => mret true
      | Raised e =>
          show_error_exit
            (Tuple [MStr "Adding initiators %s to host %s failed witherror %s";
                    MList add_list; MStr name; MStr e])
      end
    else mret false.

Definition remove_host_initiators (name : string)
    (initiators : list string) : M remote bool :=
  h ← get_host name;
  let existing_inits := existing_initiators h in
  if bool_decide (existing_inits = []) then mret false
  else
    let remove_list := _get_remove_initiators existing_inits initiators in
    if (0 <? List.length remove_list)%nat then
      a ← call (modify_host_call name (remove_init_list remove_list));
      match a with
      | Returned _ => mret true
      | Raised e =>
          show_error_exit
            (Tuple [MStr "Removing initiators %s from host %s failed with error %s";
                    MList remove_list; MStr name; MStr e])
      end
    else mret false.

Definition rename_host (name new : string) : M remote bool :=
  a ← call (modify_host_call name (new_name_kw new));
  match a with
  | Returned _ => mret true
  | Raised e =>
      show_error_exit
        (Tuple [MStr "Renaming of host %s failed with error %s";
                MStr name; MStr e])
  end.

(** Subscripting [None] (the host vanished since the first fetch) is a
    [TypeError] that nothing catches. *)
Definition modify_host_flags (name : string) (received_host_flags : pydict)
    : M remote bool :=
  h ← get_host name;
  match h with
  | None => stop Uncaught
  | Some h =>
      let current_flags := _recreate_host_flag_dict h ∅ in
      let new_flags_dict := overlay received_host_flags current_flags in
      if bool_decide (new_flags_dict = current_flags) then mret false
      else
        a ← call (modify_host_call name (host_flag_dict new_flags_dict));
        match a with
        | Returned _ => mret true
        | Raised e =>
            show_error_exit
              (Tuple [MStr "Modify host %s failed with error %s";
                      MStr name; MStr e])
        end
  end.

Definition delete_host (name : string) : M remote bool :=
  a ← call (delete_host_call name);
  match a with
  | Returned _ => mret true
  | Raised e =>
      show_error_exit
        (Tuple [MStr "Delete host %s failed with error %s";
                MStr name; MStr e])
  end.

(** [_create_result_dict]: the pair of [changed] and [host_details]. *)
Definition _create_result_dict (p : params) (changed : bool)
    : M remote (bool * details) :=
  if bool_decide (state p = absent) then mret (changed, EmptyDict)
  else if truthy_str (new_name p) then
    h ← get_host (default "" (new_name p));
    mret (changed, Fetched h)
  else
    h ← get_host (host_name p);
    mret (changed, Fetched h).

Definition perform_module_operation (p : params) : M remote unit :=
  let name := host_name p in
  h ← get_host name;
  let changed := false in
  changed ←
    (if bool_decide (state p = present) && negb (bool_decide (is_Some h))
        && nonempty_str name
     then create_host p name
     else mret changed);
  changed ←
    (if bool_decide (state p = present) && bool_decide (is_Some h)
        && bool_decide (initiator_state p = Some present_in_host)
        && truthy_list (initiators p)
     then c ← add_host_initiators name (default [] (initiators p));
          mret (c || changed)
     else mret changed);
  changed ←
    (if bool_decide (state p = present) && bool_decide (is_Some h)
        && bool_decide (initiator_state p = Some absent_in_host)
        && truthy_list (initiators p)
     then c ← remove_host_initiators name (default [] (initiators p));
          mret (c || changed)
     else mret changed);
  changed ←
    (if bool_decide (state p = present) && bool_decide (is_Some h)
        && truthy_list (host_flags p)
     then c ← modify_host_flags name (default [] (host_flags p));
          mret (c || changed)
     else mret changed);
  changed ←
    (match h, new_name p with
     | Some h, Some new =>
         if bool_decide (state p = present) && nonempty_str new
            && negb (bool_decide (hostId h = new))
         then rename_host name new
         else mret changed
     | _, _ => mret changed
     end);
  changed ←
    (if bool_decide (state p = absent) && bool_decide (is_Some h)
     then c ← delete_host name; mret (c || changed)
     else mret changed);
  res ← _create_result_dict p changed;
  a ← call close_connection;
  match a with
  | Returned _ => stop (exit_json res.1 res.2)
  | Raised _ => stop Uncaught
  end.

End Module.

(* ===================================================================== *)
(** ** A reference array *)
(* ===================================================================== *)

(** An in-memory array against which the module can be run on concrete
    parameters: hosts by name, and the names a masking view refers to.  It
    answers as Unisphere does where the module depends on it: fetching an
    unknown host raises, and so does deleting a host that a masking view
    refers to. *)
Record array : Type := Array {
  hosts : gmap string host;
  masked : gset string
}.

Definition report_of (want : flag_value) (d : gmap string flag_value)
    : string :=
  String.concat "," (filter (λ n, d !! n = Some want) host_flags_list).

Definition apply_flags (d : gmap string flag_value) (h : host) : host :=
  Host (hostId h) (initiator h) (report_of Enabled d) (report_of Disabled d)
       (bool_decide (d !! "consistent_lun" = Some (LunFlag true))).

Definition apply_change (ch : host_change) (h : host) : host :=
  match ch with
  | add_init_list l =>
      Host (hostId h) (Some (default [] (initiator h) ++ l)%list)
           (enabled_flags h) (disabled_flags h) (consistent_lun h)
  | remove_init_list l =>
      Host (hostId h) (Some (filter (λ i, i ∉ l) (default [] (initiator h))))
           (enabled_flags h) (disabled_flags h) (consistent_lun h)
  | host_flag_dict d => apply_flags d h
  | new_name_kw n =>
      Host n (initiator h) (enabled_flags h) (disabled_flags h)
           (consistent_lun h)
  end.

Definition array_serve (a : array) (c : request) : array * reply :=
  match c with
  | get_host_call n =>
      match hosts a !! n with
      | Some h => (a, Returned (Some h))
      | None => (a, Raised "host not found")
      end
  | create_host_call n inits flags =>
      match hosts a !! n with
      | Some _ => (a, Raised "host already exists")
      | None =>
          let h := apply_flags (default ∅ flags) (Host n inits "" "" false) in
          (Array (<[n := h]> (hosts a)) (masked a), Returned None)
      end
  | modify_host_call n ch =>
      match hosts a !! n with
      | None => (a, Raised "host not found")
      | Some h =>
          match ch with
          | new_name_kw n' =>
              (Array (<[n' := apply_change ch h]> (delete n (hosts a)))
                     (masked a), Returned None)
          | _ =>
              (Array (<[n := apply_change ch h]> (hosts a)) (masked a),
               Returned None)
          end
      end
  | delete_host_call n =>
      if bool_decide (n ∈ masked a)
      then (a, Raised "host is part of a masking view")
      else (Array (delete n (hosts a)) (masked a), Returned None)
  | close_connection => (a, Returned None)
  end.

(** A run of the whole module against the reference array. *)
Definition run_on_array (p : params) (a : array)
    : outcome unit * array * list event :=
  perform_module_operation array_serve p a.

(* ===================================================================== *)
(** ** Specification-side vocabulary *)
(* ===================================================================== *)

(** The nine keys of a complete payload. *)
Definition payload_keys : gset string :=
  list_to_set (host_flags_list ++ ["consistent_lun"])%list.

Definition tri_state (v : flag_value) : Prop :=
  v = Enabled ∨ v = Disabled ∨ v = Default.

(** The canonical names a comma-separated report mentions: each non-empty
    item, its annotations removed, in lower case. *)
Definition reported (report : string) : list string :=
  (λ flag, lower (re_sub_annotation flag))
    <$> filter (λ flag, flag ≠ "") (split_on "," report).

(** The characters of a string. *)
Definition chars (s : string) : list ascii := list_ascii_of_string s.

(** [part] occurs in [whole]. *)
Definition occurs_in (part whole : string) : Prop :=
  ∃ pre post, whole = pre +:+ part +:+ post.

(** A failure message mentions a string when it occurs in the text or, for
    a tuple, in one of its items. *)
Definition mentions (m : message) (s : string) : Prop :=
  match m with
  | Text t => occurs_in s t
  | Tuple items =>
      (∃ t, MStr t ∈ items ∧ occurs_in s t)
  end.

(** The calls that change the array, the host they are about, and how the
    code words each operation. *)
Definition mutation (c : request) : bool :=
  match c with
  | create_host_call _ _ _ | modify_host_call _ _ | delete_host_call _ => true
  | get_host_call _ | close_connection => false
  end.

Definition host_of (c : request) : string :=
  match c with
  | get_host_call n | create_host_call n _ _ | modify_host_call n _
  | delete_host_call n => n
  | close_connection => ""
  end.

Definition operation_of (c : request) : string :=
  match c with
  | create_host_call _ _ _ => "Create host"
  | modify_host_call _ (add_init_list _) => "Adding initiators"
  | modify_host_call _ (remove_init_list _) => "Removing initiators"
  | modify_host_call _ (host_flag_dict _) => "Modify host"
  | modify_host_call _ (new_name_kw _) => "Renaming of host"
  | delete_host_call _ => "Delete host"
  | get_host_call _ => "Getting host"
  | close_connection => "Closing unisphere connection"
  end.

Definition mutation_raised (ev : event) : bool :=
  match ev with
  | (c, Raised _) => mutation c
  | (_, Returned _) => false
  end.

Definition closes (ev : event) : Prop := ev.1 = close_connection.

(** The value the create path stores for a flag, from what the received
    dictionary holds for it. *)
Definition create_rule (o : option pyval) : flag_value :=
  match o with
  | None => Default
  | Some v =>
      if py_in v ["unset"; "Unset"] then Default
      else if is_False v || py_in v ["false"; "False"] then Disabled
      else Enabled
  end.

(** The value the modify path stores under the lower-cased key [flag]. *)
Definition overlay_rule (flag : string) (v : pyval) : flag_value :=
  if negb (bool_decide (flag = "consistent_lun")) then
    if is_True v || py_in v ["True"; "true"] then Enabled
    else if is_False v || py_in v ["false"; "False"] then Disabled
    else Default
  else LunFlag (negb (is_False v
                      || py_in v ["False"; "false"; "unset"; "Unset"])).

(** What the create path stores for [consistent_lun]. *)
Definition lun_rule (o : option pyval) : bool :=
  match o with
  | None => false
  | Some v => negb (is_False v || py_in v ["unset"; "Unset"; "false"; "False"])
  end.

(** A log without a failed mutation. *)
Definition quiet (t : list event) : Prop :=
  Forall (λ ev, mutation_raised ev = false) t.

(** The failure message names the operation, the host and the cause. *)
Definition names_failure (msg : message) (c : request) (e : string) : Prop :=
  mentions msg (operation_of c) ∧ mentions msg (host_of c) ∧ mentions msg e.

(** A piece of the module fails fast when its log has no failed mutation
    unless it ended in [fail_json], and then the log is: calls without a
    failed mutation, the one failed mutation, named by the message, and
    after it nothing but the closing of the connection. *)
Definition fails_fast {remote A} (res : outcome A * remote * list event)
    : Prop :=
  match res.1.1 with
  | fail_json msg =>
      ∃ pre c e post,
        res.2 = (pre ++ (c, Raised e) :: post)%list
        ∧ quiet pre ∧ mutation c = true ∧ names_failure msg c e
        ∧ Forall closes post
  | _ => quiet res.2
  end.

(** Every call of a log satisfies [P]. *)
Definition emits {remote A} (P : event → Prop) (m : M remote A) : Prop :=
  ∀ r, Forall P (m r).2.

(** The flag sets a run may hand to the array for the received flags [rf]:
    to [create_host] the normalised dictionary, to [modify_host] the
    overlay of a rebuilt baseline. *)
Definition payload_from (rf : pydict) (ev : event) : Prop :=
  match ev.1 with
  | create_host_call _ _ (Some d) => d = _create_host_flags_dict rf ∅
  | modify_host_call _ (host_flag_dict d) =>
      ∃ h, d = overlay rf (_recreate_host_flag_dict h ∅)
  | _ => True
  end.

(** The initiator list and the flag set that [create_host] resolves from
    the parameters. *)
Definition create_initiators (p : params) : option (list string) :=
  match initiator_state p with
  | Some present_in_host => initiators p
  | Some absent_in_host | None => None
  end.

Definition create_flags (p : params) : option (gmap string flag_value) :=
  match host_flags p with
  | Some ((_ :: _) as rf) => Some (_create_host_flags_dict rf ∅)
  | _ => None
  end.

(** Concrete arrays and parameters for the runs below: an empty array, and
    an array whose only host, H1, is referred to by a masking view. *)
Definition empty_array : array := Array ∅ ∅.

Definition host_H1 : host := Host "H1" (Some ["iqn.a"]) "" "" false.

Definition masked_array : array := Array {[ "H1" := host_H1 ]} {[ "H1" ]}.


(* ===================================================================== *)
(** ** Vocabulary for whole runs *)
(* ===================================================================== *)

(** The host, if any, that [get_host] makes of an answer. *)
Definition fetched (a : reply) : option host :=
  match a with
  | Returned h => h
  | Raised _ => None
  end.

(** Did the log ask the array to change something? *)
Definition mutated (t : list event) : bool :=
  existsb (λ ev, mutation ev.1) t.

Definition no_close (t : list event) : Prop :=
  Forall (λ ev, ev.1 ≠ close_connection) t.

(** The connection was closed once, by the last call of the log. *)
Definition closed_once (t : list event) : Prop :=
  ∃ pre a, t = (pre ++ [(close_connection, a)])%list ∧ no_close pre.

(** The log ends with a fetch that found no host, the connection still
    open. *)
Definition vanished (t : list event) : Prop :=
  ∃ pre n a,
    t = (pre ++ [(get_host_call n, a)])%list ∧ fetched a = None ∧ no_close pre.

(** The log ends with the one attempt to close the connection, which
    raised. *)
Definition close_failed (t : list event) : Prop :=
  ∃ pre e, t = (pre ++ [(close_connection, Raised e)])%list ∧ no_close pre.

(** [m] ends, from every remote state, in an outcome and a log that
    satisfy [Q]. *)
Definition ensures {remote A} (m : M remote A)
    (Q : outcome A → list event → Prop) : Prop :=
  ∀ r, Q (m r).1.1 (m r).2.

(** What one step of the run does to the accumulated [changed]. *)
Definition step_summary (changed : bool) (o : outcome bool)
    (t : list event) : Prop :=
  match o with
  | Value b => b = changed || mutated t ∧ no_close t
  | fail_json _ => closed_once t
  | exit_json _ _ => False
  | Uncaught => vanished t
  end.

(** The name under which [_create_result_dict] fetches the snapshot. *)
Definition snapshot_name (p : params) : string :=
  if truthy_str (new_name p) then default "" (new_name p) else host_name p.

(** The details of a result and the end of the log they come from: none
    with state absent; else what the last fetch before the closing of the
    connection, under [snapshot_name], made of its answer. *)
Definition details_of (p : params) (d : details) (t : list event) : Prop :=
  (state p = absent ∧ d = EmptyDict)
  ∨ (state p = present
     ∧ ∃ pre a c,
         t = (pre ++ [(get_host_call (snapshot_name p), a);
                      (close_connection, c)])%list
         ∧ d = Fetched (fetched a)).

(** What a run, or the rest of one, ends in. *)
Definition run_summary (p : params) (changed : bool) (o : outcome unit)
    (t : list event) : Prop :=
  match o with
  | Value _ => False
  | fail_json _ => closed_once t
  | exit_json ch d =>
      ch = changed || mutated t
      ∧ closed_once t
      ∧ details_of p d t
  | Uncaught => vanished t ∨ close_failed t
  end.

(** The calls that the parameters and the host found by the first fetch
    allow. *)
Definition licensed (p : params) (found : option host) (ev : event) : Prop :=
  match ev.1 with
  | get_host_call n =>
      n = host_name p ∨ (state p = present ∧ new_name p = Some n ∧ n ≠ "")
  | create_host_call n inits flags =>
      n = host_name p ∧ n ≠ "" ∧ state p = present ∧ found = None
      ∧ inits = create_initiators p ∧ flags = create_flags p
  | modify_host_call n ch =>
      n = host_name p ∧ state p = present ∧ is_Some found
      ∧ match ch with
        | add_init_list l =>
            initiator_state p = Some present_in_host ∧ l ≠ []
            ∧ ∀ x, x ∈ l → x ∈ default [] (initiators p)
        | remove_init_list l =>
            initiator_state p = Some absent_in_host ∧ l ≠ []
            ∧ ∀ x, x ∈ l → x ∈ default [] (initiators p)
        | host_flag_dict d => ∃ rf, host_flags p = Some rf ∧ rf ≠ []
        | new_name_kw new =>
            new_name p = Some new ∧ new ≠ ""
            ∧ ∀ h, found = Some h → hostId h ≠ new
        end
  | delete_host_call n =>
      n = host_name p ∧ state p = absent ∧ is_Some found
  | close_connection => True
  end.

(** An array that answers the first fetch with H1 and then loses the
    connection: every later fetch raises.  Its state counts the fetches. *)
Definition flaky_serve (fetches : nat) (c : request) : nat * reply :=
  match c with
  | get_host_call _ =>
      (S fetches,
       if bool_decide (fetches = 0%nat) then Returned (Some host_H1)
       else Raised "connection lost")
  | _ => (fetches, Returned None)
  end.
(* ===================================================================== *)
(** * Properties *)
(* ===================================================================== *)

(** ** Folding insertions over a list of keys *)

Section FoldInsert.
Context {A : Type} (key : A → string) (val : A → flag_value).

Local Abbreviation put :=
  (λ (d : gmap string flag_value) (k : A), <[key k := val k]> d).

Lemma foldl_insert_lookup ks d n x :
  (∀ k, k ∈ ks → key k = n → val k = x) →
  foldl put d ks !! n
  = if bool_decide (n ∈ key <$> ks) then Some x else d !! n.
Proof.
  revert d. induction ks as [|k ks IH]; intros d Hval; [done |].
  rewrite fmap_cons. cbn [foldl].
  rewrite IH by (intros; apply Hval; [by right | done]).
  destruct (decide (n ∈ key <$> ks)) as [Hin | Hin].
  - rewrite !bool_decide_eq_true_2; [done | by right | done].
  - rewrite (bool_decide_eq_false_2 _ Hin). cbn beta.
    destruct (decide (key k = n)) as [Hk | Hk].
    + rewrite bool_decide_eq_true_2 by (rewrite Hk; by left).
      rewrite Hk, lookup_insert_eq. f_equal. apply Hval; [by left | done].
    + rewrite lookup_insert_ne by done.
      rewrite bool_decide_eq_false_2; [done |].
      intros [?|?]%elem_of_cons; congruence.
Qed.

Lemma foldl_insert_frame ks d n :
  n ∉ key <$> ks → foldl put d ks !! n = d !! n.
Proof.
  revert d. induction ks as [|k ks IH]; intros d Hn; [done |].
  rewrite fmap_cons, not_elem_of_cons in Hn. destruct Hn as [Hk Hn].
  cbn [foldl]. rewrite IH by done. cbn beta. by rewrite lookup_insert_ne.
Qed.

Lemma foldl_insert_dom ks d :
  dom (foldl put d ks) = dom d ∪ list_to_set (key <$> ks).
Proof.
  revert d. induction ks as [|k ks IH]; intros d.
  - cbn. set_solver.
  - cbn [foldl]. rewrite IH. cbn beta. rewrite dom_insert_L, fmap_cons.
    set_solver.
Qed.

Lemma foldl_insert_invariant (P : flag_value → Prop) ks d n :
  (∀ k, k ∈ ks → key k = n → P (val k)) →
  (∃ v, d !! n = Some v ∧ P v) →
  ∃ v, foldl put d ks !! n = Some v ∧ P v.
Proof.
  revert d. induction ks as [|k ks IH]; intros d Hval Hd; [done |].
  cbn [foldl]. apply IH; [intros; apply Hval; [by right | done] |].
  cbn beta. destruct (decide (key k = n)) as [Hk | Hk].
  - exists (val k). rewrite Hk, lookup_insert_eq.
    split; [done |]. apply Hval; [by left | done].
  - by rewrite lookup_insert_ne.
Qed.

End FoldInsert.

Lemma foldl_agree {A B} (f g : B → A → B) (l : list A) (b : B) :
  (∀ b a, a ∈ l → f b a = g b a) → foldl f b l = foldl g b l.
Proof.
  revert b. induction l as [|a l IH]; intros b Hfg; simpl; [done |].
  rewrite Hfg by (by left). apply IH. intros. apply Hfg. by right.
Qed.

(** ** Strings and dictionaries *)

Lemma lower_canonical n : n ∈ host_flags_list → lower n = n.
Proof.
  unfold host_flags_list. intros Hn.
  repeat (apply elem_of_cons in Hn as [-> | Hn]; [reflexivity |]).
  by apply elem_of_nil in Hn.
Qed.

Lemma consistent_lun_not_port_flag : "consistent_lun" ∉ host_flags_list.
Proof. compute_done. Qed.

Lemma py_get_is_Some k (d : pydict) : k ∈ py_keys d → is_Some (py_get k d).
Proof.
  unfold py_keys. induction d as [|[k' v] d IH]; simpl.
  - by intros ?%elem_of_nil.
  - intros Hk. case_bool_decide; [by eexists |].
    apply elem_of_cons in Hk as [-> | Hk]; [done | by apply IH].
Qed.

Lemma py_get_None k (d : pydict) : py_get k d = None ↔ k ∉ py_keys d.
Proof.
  unfold py_keys. induction d as [|[k' v] d IH]; simpl.
  - split; [intros _; apply not_elem_of_nil | done].
  - case_bool_decide as Hk.
    + split; [done |]. intros []. subst. by left.
    + rewrite IH, not_elem_of_cons. naive_solver.
Qed.

(** ** The create-path normaliser *)

Lemma create_flag_step_insert rf d k :
  create_flag_step rf d k = <[lower k := create_rule (py_get k rf)]> d.
Proof.
  unfold create_flag_step, create_rule, _set_to_default, _set_to_disable,
    _set_to_enable.
  destruct (py_get k rf) as [v|]; [| done].
  destruct (py_in v ["unset"; "Unset"]); [done |].
  by destruct (is_False v || py_in v ["false"; "False"]).
Qed.

Lemma create_fold_lookup rf d n :
  n ∈ host_flags_list →
  foldl (create_flag_step rf) d host_flags_list !! n
  = Some (create_rule (py_get n rf)).
Proof.
  intros Hn.
  rewrite (foldl_agree _ (λ d k, <[lower k := create_rule (py_get k rf)]> d))
    by (intros; apply create_flag_step_insert).
  rewrite (foldl_insert_lookup lower _ _ _ _ (create_rule (py_get n rf))).
  - rewrite bool_decide_eq_true_2; [done |].
    apply list_elem_of_fmap. exists n. by rewrite lower_canonical.
  - intros k Hk Hlow. rewrite lower_canonical in Hlow by done. by subst.
Qed.

Lemma create_fold_dom rf d :
  dom (foldl (create_flag_step rf) d host_flags_list)
  = dom d ∪ list_to_set host_flags_list.
Proof.
  rewrite (foldl_agree _ (λ d k, <[lower k := create_rule (py_get k rf)]> d))
    by (intros; apply create_flag_step_insert).
  by rewrite foldl_insert_dom.
Qed.

Lemma create_dict_unfold rf d0 :
  _create_host_flags_dict rf d0
  = <["consistent_lun" := LunFlag (lun_rule (py_get "consistent_lun" rf))]>
      (foldl (create_flag_step rf) d0 host_flags_list).
Proof.
  unfold _create_host_flags_dict, lun_rule, _disable_consistent_lun,
    _enable_consistent_lun.
  destruct (py_get "consistent_lun" rf) as [v|]; [| done].
  by destruct (is_False v || py_in v ["unset"; "Unset"; "false"; "False"]).
Qed.

Lemma create_dict_lookup rf d0 n :
  n ∈ host_flags_list →
  _create_host_flags_dict rf d0 !! n = Some (create_rule (py_get n rf)).
Proof.
  intros Hn. rewrite create_dict_unfold, lookup_insert_ne.
  - by apply create_fold_lookup.
  - intros <-. by apply consistent_lun_not_port_flag.
Qed.

Lemma create_dict_lookup_lun rf d0 :
  _create_host_flags_dict rf d0 !! "consistent_lun"
  = Some (LunFlag (lun_rule (py_get "consistent_lun" rf))).
Proof. by rewrite create_dict_unfold, lookup_insert_eq. Qed.

Lemma create_dict_dom rf :
  dom (_create_host_flags_dict rf ∅) = payload_keys.
Proof.
  rewrite create_dict_unfold, dom_insert_L, create_fold_dom, dom_empty_L.
  unfold payload_keys. rewrite list_to_set_app_L. set_solver.
Qed.

Lemma create_rule_tri_state o : tri_state (create_rule o).
Proof.
  unfold tri_state, create_rule. destruct o as [v|]; [| auto].
  destruct (py_in v _); [auto |]. destruct (_ || _); auto.
Qed.

(** The literals each arm of the create rule answers to. *)
Lemma create_rule_cases o :
  (create_rule o = Default
   ↔ o ∈ [None; Some (PyStr "unset"); Some (PyStr "Unset")])
  ∧ (create_rule o = Disabled
     ↔ o ∈ [Some (PyBool false); Some (PyStr "false"); Some (PyStr "False")])
  ∧ (create_rule o = Enabled
     ↔ o ∉ [None; Some (PyStr "unset"); Some (PyStr "Unset");
            Some (PyBool false); Some (PyStr "false"); Some (PyStr "False")]).
Proof.
  unfold create_rule, py_in, is_False, Default, Disabled, Enabled.
  destruct o as [[| [|] | z | s]|]; simpl.
  all: repeat case_bool_decide; simpl.
  all: rewrite ?elem_of_cons, ?not_elem_of_cons, ?elem_of_nil in *.
  all: naive_solver.
Qed.

Lemma lun_rule_cases o :
  lun_rule o = false
  ↔ o ∈ [None; Some (PyBool false); Some (PyStr "unset");
         Some (PyStr "Unset"); Some (PyStr "false"); Some (PyStr "False")].
Proof.
  unfold lun_rule, py_in, is_False.
  destruct o as [[| [|] | z | s]|]; simpl.
  all: repeat case_bool_decide; simpl.
  all: rewrite ?elem_of_cons, ?not_elem_of_cons, ?elem_of_nil in *.
  all: naive_solver.
Qed.

(** C2 (as amended): the create-path normaliser compares with the exact
    literals "unset"/"Unset" and "false"/"False", not with every casing.
    For each of the eight flag names: absence, "unset" or "Unset" give
    Default; boolean false, "false" or "False" give Disabled; every other
    value gives Enabled.  [consistent_lun] is false for absence, boolean
    false and those four literals, and true for every other value. *)
Theorem create_flags_exact_literals
    (rf : pydict) (d0 : gmap string flag_value) (name : string) :
  name ∈ host_flags_list →
  let d := _create_host_flags_dict rf d0 in
  let o := py_get name rf in
  let c := py_get "consistent_lun" rf in
  (d !! name = Some Default
   ↔ o ∈ [None; Some (PyStr "unset"); Some (PyStr "Unset")])
  ∧ (d !! name = Some Disabled
     ↔ o ∈ [Some (PyBool false); Some (PyStr "false"); Some (PyStr "False")])
  ∧ (d !! name = Some Enabled
     ↔ o ∉ [None; Some (PyStr "unset"); Some (PyStr "Unset");
            Some (PyBool false); Some (PyStr "false"); Some (PyStr "False")])
  ∧ (d !! "consistent_lun" = Some (LunFlag false)
     ↔ c ∈ [None; Some (PyBool false); Some (PyStr "unset");
            Some (PyStr "Unset"); Some (PyStr "false"); Some (PyStr "False")])
  ∧ (d !! "consistent_lun" = Some (LunFlag true)
     ↔ c ∉ [None; Some (PyBool false); Some (PyStr "unset");
            Some (PyStr "Unset"); Some (PyStr "false"); Some (PyStr "False")]).
Proof.
  intros Hn d o c. subst d.
  rewrite create_dict_lookup by done. rewrite create_dict_lookup_lun.
  fold o c. destruct (create_rule_cases o) as (Hdef & Hdis & Hen).
  pose proof (lun_rule_cases c) as Hlun.
  repeat split.
  - intros [= H]. by apply Hdef.
  - intros H. f_equal. by apply Hdef.
  - intros [= H]. by apply Hdis.
  - intros H. f_equal. by apply Hdis.
  - intros [= H]. by apply Hen.
  - intros H. f_equal. by apply Hen.
  - intros [= H]. by apply Hlun.
  - intros H. do 2 f_equal. by apply Hlun.
  - intros [= H] Hc. apply Hlun in Hc. congruence.
  - intros H. do 2 f_equal. apply not_false_iff_true. intros Hf. by apply H, Hlun.
Qed.

Lemma create_flags_exact_literals_witness :
  let d := _create_host_flags_dict
             [("scsi_3", PyStr "Unset"); ("consistent_lun", PyInt 1)] ∅ in
  d !! "scsi_3" = Some Default ∧ d !! "consistent_lun" = Some (LunFlag true).
Proof.
  pose proof (create_flags_exact_literals
                [("scsi_3", PyStr "Unset"); ("consistent_lun", PyInt 1)] ∅
                "scsi_3" ltac:(compute_done)) as (Hdef & _ & _ & _ & Hlun).
  split.
  - apply Hdef. vm_compute. right. right. left.
  - apply Hlun. intros Hc.
    repeat (apply elem_of_cons in Hc as [Hc | Hc];
            [vm_compute in Hc; discriminate |]).
    by apply elem_of_nil in Hc.
Defined.

(** C2 (counterexample): other casings of "unset" and "false" are not
    recognised: "UNSET" and "FALSE" enable the flag, and "uNsEt" turns
    [consistent_lun] on. *)
Lemma create_flags_other_casings :
  lower "UNSET" = "unset" ∧ lower "FALSE" = "false" ∧ lower "uNsEt" = "unset"
  ∧ _create_host_flags_dict [("scsi_3", PyStr "UNSET")] ∅ !! "scsi_3"
    = Some Enabled
  ∧ _create_host_flags_dict [("scsi_3", PyStr "FALSE")] ∅ !! "scsi_3"
    = Some Enabled
  ∧ _create_host_flags_dict [("consistent_lun", PyStr "uNsEt")] ∅
      !! "consistent_lun" = Some (LunFlag true)
  ∧ Enabled ≠ Default ∧ Enabled ≠ Disabled.
Proof. repeat split; try (vm_compute; reflexivity); discriminate. Qed.

(** ** The modify-path overlay *)

Lemma overlay_step_insert rf d k v :
  py_get k rf = Some v →
  overlay_step rf d k = <[lower k := overlay_rule k v]> d.
Proof.
  intros Hv. unfold overlay_step, overlay_rule. rewrite Hv.
  unfold _set_to_enable, _set_to_disable, _set_to_default,
    _disable_consistent_lun, _enable_consistent_lun.
  case_bool_decide as Hk; simpl.
  - subst k. by destruct (is_False v || py_in v _).
  - destruct (is_True v || py_in v _); [done |].
    by destruct (is_False v || py_in v _).
Qed.

Lemma overlay_fold rf B :
  overlay rf B
  = foldl (λ d k, <[lower k := overlay_rule k (default PyNone (py_get k rf))]> d)
          B (py_keys rf).
Proof.
  unfold overlay. apply foldl_agree. intros d k Hk.
  destruct (py_get_is_Some k rf Hk) as [v Hv].
  rewrite (overlay_step_insert _ _ _ v) by done. by rewrite Hv.
Qed.

Lemma overlay_lookup_frame rf B n :
  n ∉ lower <$> py_keys rf → overlay rf B !! n = B !! n.
Proof. intros Hn. rewrite overlay_fold. by apply foldl_insert_frame. Qed.

Lemma overlay_lookup rf B name v :
  py_get name rf = Some v →
  lower name = name →
  (∀ k, k ∈ py_keys rf → lower k = name → k = name) →
  overlay rf B !! name = Some (overlay_rule name v).
Proof.
  intros Hv Hlow Huniq. rewrite overlay_fold.
  rewrite (foldl_insert_lookup lower _ _ _ _ (overlay_rule name v)).
  - rewrite bool_decide_eq_true_2; [done |].
    apply list_elem_of_fmap. exists name. split; [done |].
    apply dec_stable. intros Hn. apply py_get_None in Hn. congruence.
  - intros k Hk Hkn. rewrite (Huniq k Hk Hkn), Hv. done.
Qed.

Lemma overlay_dom rf B :
  dom (overlay rf B) = dom B ∪ list_to_set (lower <$> py_keys rf).
Proof. rewrite overlay_fold. apply foldl_insert_dom. Qed.

Lemma overlay_rule_cases name v :
  name ≠ "consistent_lun" →
  (overlay_rule name v = Enabled
   ↔ v ∈ [PyBool true; PyStr "True"; PyStr "true"])
  ∧ (overlay_rule name v = Disabled
     ↔ v ∈ [PyBool false; PyStr "false"; PyStr "False"])
  ∧ (overlay_rule name v = Default
     ↔ v ∉ [PyBool true; PyStr "True"; PyStr "true";
            PyBool false; PyStr "false"; PyStr "False"])
  ∧ (overlay_rule name v = create_rule (Some v)
     ↔ v ∈ [PyBool true; PyStr "True"; PyStr "true";
            PyBool false; PyStr "false"; PyStr "False";
            PyStr "unset"; PyStr "Unset"]).
Proof.
  intros Hname. unfold overlay_rule, create_rule.
  rewrite (bool_decide_eq_false_2 _ Hname).
  unfold py_in, is_True, is_False, Default, Disabled, Enabled.
  destruct v as [| [|] | z | s]; simpl.
  all: repeat case_bool_decide; simpl.
  all: rewrite ?elem_of_cons, ?not_elem_of_cons, ?elem_of_nil in *.
  all: naive_solver.
Qed.

Lemma overlay_rule_tri_state name v :
  name ≠ "consistent_lun" → tri_state (overlay_rule name v).
Proof.
  intros Hname. unfold overlay_rule, tri_state.
  rewrite (bool_decide_eq_false_2 _ Hname); simpl.
  destruct (_ || _); [auto |]. destruct (_ || _); auto.
Qed.

(** X23: the rule of the overlay, as the code has it.  For a flag name
    of the eight that the input mentions (and that no other key of the
    input spells in another casing), the overlay sets Enabled for boolean
    true, "True" or "true", Disabled for boolean false, "false" or "False",
    and Default for every other value.  It agrees with the create-path
    normaliser exactly on those six values and on "unset" and "Unset". *)
Theorem overlay_own_rule
    (rf : pydict) (B : gmap string flag_value) (name : string) (v : pyval) :
  name ∈ host_flags_list →
  py_get name rf = Some v →
  (∀ k, k ∈ py_keys rf → lower k = name → k = name) →
  let new := overlay rf B !! name in
  (new = Some Enabled ↔ v ∈ [PyBool true; PyStr "True"; PyStr "true"])
  ∧ (new = Some Disabled ↔ v ∈ [PyBool false; PyStr "false"; PyStr "False"])
  ∧ (new = Some Default
     ↔ v ∉ [PyBool true; PyStr "True"; PyStr "true";
            PyBool false; PyStr "false"; PyStr "False"])
  ∧ (new = _create_host_flags_dict rf ∅ !! name
     ↔ v ∈ [PyBool true; PyStr "True"; PyStr "true";
            PyBool false; PyStr "false"; PyStr "False";
            PyStr "unset"; PyStr "Unset"]).
Proof.
  intros Hn Hv Huniq new. subst new.
  assert (name ≠ "consistent_lun") as Hne
    by (intros ->; by apply consistent_lun_not_port_flag).
  rewrite (overlay_lookup _ _ _ v) by auto using lower_canonical.
  rewrite create_dict_lookup, Hv by done.
  destruct (overlay_rule_cases name v Hne) as (He & Hd & Hdef & Hagree).
  repeat split.
  - intros [= H]. by apply He.
  - intros H. f_equal. by apply He.
  - intros [= H]. by apply Hd.
  - intros H. f_equal. by apply Hd.
  - intros [= H]. by apply Hdef.
  - intros H. f_equal. by apply Hdef.
  - intros [= H]. by apply Hagree.
  - intros H. f_equal. by apply Hagree.
Qed.

Lemma overlay_own_rule_witness :
  overlay [("scsi_3", PyStr "true"); ("openvms", PyStr "unset")] ∅ !! "scsi_3"
  = Some Enabled.
Proof.
  pose proof (overlay_own_rule
                [("scsi_3", PyStr "true"); ("openvms", PyStr "unset")] ∅
                "scsi_3" (PyStr "true")) as H.
  destruct H as (He & _).
  - compute_done.
  - vm_compute. reflexivity.
  - intros k Hk Hlow.
    repeat (apply elem_of_cons in Hk as [-> | Hk];
            [first [reflexivity | vm_compute in Hlow; discriminate] |]).
    by apply elem_of_nil in Hk.
  - apply He. right. right. left.
Defined.

(** The two paths on values that neither recognises: "yes", "unset me"
    and the integer 1 are enabled by the create path and reset to Default
    by the overlay. *)
Lemma overlay_unrecognised_values :
  let B := _recreate_host_flag_dict (Host "H1" None "" "" false) ∅ in
  overlay [("scsi_3", PyStr "yes")] B !! "scsi_3" = Some Default
  ∧ _create_host_flags_dict [("scsi_3", PyStr "yes")] ∅ !! "scsi_3"
    = Some Enabled
  ∧ overlay [("scsi_3", PyStr "unset me")] B !! "scsi_3" = Some Default
  ∧ _create_host_flags_dict [("scsi_3", PyStr "unset me")] ∅ !! "scsi_3"
    = Some Enabled
  ∧ overlay [("scsi_3", PyInt 1)] B !! "scsi_3" = Some Default
  ∧ _create_host_flags_dict [("scsi_3", PyInt 1)] ∅ !! "scsi_3"
    = Some Enabled
  ∧ Default ≠ Enabled.
Proof. repeat split; try (vm_compute; reflexivity); discriminate. Qed.

(** C5: the overlay is a partial update.  When the input mentions only
    names of the closed set (the eight flags and [consistent_lun]), the
    result agrees with the baseline at every key the input does not
    mention, [consistent_lun] included. *)
Theorem overlay_partial_update
    (rf : pydict) (B : gmap string flag_value) (n : string) :
  (∀ k, k ∈ py_keys rf → k ∈ host_flags_list ∨ k = "consistent_lun") →
  n ∉ py_keys rf →
  overlay rf B !! n = B !! n.
Proof.
  intros Hkeys Hn. apply overlay_lookup_frame.
  intros (k & -> & Hk)%list_elem_of_fmap. apply Hn.
  destruct (Hkeys k Hk) as [Hcanon | ->].
  - by rewrite lower_canonical.
  - done.
Qed.

Lemma overlay_partial_update_witness :
  let B := _recreate_host_flag_dict
             (Host "H1" None "OpenVMS(Ovrd)" "SCSI_3" true) ∅ in
  let rf := [("spc2_protocol_version", PyBool true);
             ("volume_set_addressing", PyStr "unset")] in
  overlay rf B !! "openvms" = B !! "openvms"
  ∧ overlay rf B !! "consistent_lun" = B !! "consistent_lun".
Proof.
  split; apply overlay_partial_update.
  all: try (intros k Hk;
            repeat (apply elem_of_cons in Hk as [-> | Hk];
                    [left; compute_done |]);
            by apply elem_of_nil in Hk).
  all: compute_done.
Defined.

(** ** Removing annotations *)

Lemma chars_cons c a s : c ∉ chars (String a s) ↔ c ≠ a ∧ c ∉ chars s.
Proof. unfold chars. simpl. apply not_elem_of_cons. Qed.

Lemma has_close_app ann rest :
  ")"%char ∉ chars ann → newline ∉ chars ann →
  has_close (ann +:+ ")" +:+ rest) = true.
Proof.
  induction ann as [|a ann IH]; [done |].
  intros [Hc Hcs]%chars_cons [Hn Hns]%chars_cons. simpl.
  rewrite (proj2 (Ascii.eqb_neq a ")")) by done.
  rewrite (proj2 (Ascii.eqb_neq a newline)) by done.
  by apply IH.
Qed.

Lemma re_sub_inside ann rest :
  ")"%char ∉ chars ann →
  re_sub_from true (ann +:+ ")" +:+ rest) = re_sub_from false rest.
Proof.
  induction ann as [|a ann IH]; [done |].
  intros [Hc Hcs]%chars_cons. simpl.
  rewrite (proj2 (Ascii.eqb_neq a ")")) by done. by apply IH.
Qed.

Lemma re_sub_plain name s :
  "("%char ∉ chars name →
  re_sub_from false (name +:+ s) = name +:+ re_sub_from false s.
Proof.
  induction name as [|a name IH]; [done |].
  intros [Hc Hcs]%chars_cons. simpl.
  rewrite (proj2 (Ascii.eqb_neq a "(")) by done. simpl.
  by rewrite IH.
Qed.

Lemma re_sub_annotated name ann rest :
  "("%char ∉ chars name → ")"%char ∉ chars ann → newline ∉ chars ann →
  re_sub_annotation (name +:+ "(" +:+ ann +:+ ")" +:+ rest)
  = name +:+ re_sub_annotation rest.
Proof.
  intros Hname Hann Hnl. unfold re_sub_annotation.
  rewrite re_sub_plain by done. f_equal.
  change ("(" +:+ ann +:+ ")" +:+ rest)
    with (String "(" (ann +:+ ")" +:+ rest)).
  cbn [re_sub_from]. rewrite has_close_app by done. simpl.
  by apply re_sub_inside.
Qed.

Lemma app_empty_r (s : string) : s +:+ "" = s.
Proof.
  induction s as [|a s IH]; [done |].
  change (String a (s +:+ "") = String a s). by rewrite IH.
Qed.

Lemma re_sub_annotated_end name ann :
  "("%char ∉ chars name → ")"%char ∉ chars ann → newline ∉ chars ann →
  re_sub_annotation (name +:+ "(" +:+ ann +:+ ")") = name.
Proof.
  intros Hname Hann Hnl.
  pose proof (re_sub_annotated name ann "" Hname Hann Hnl) as H.
  change (")" +:+ "") with ")" in H.
  change (re_sub_annotation "") with "" in H.
  by rewrite app_empty_r in H.
Qed.

(** ** The baseline rebuilt from the remote report *)

Lemma nonempty_length (s : string) :
  (0 <? String.length s)%nat = bool_decide (s ≠ "").
Proof. by destruct s. Qed.

Lemma report_fold set x :
  (∀ n d, set n d = <[lower n := x]> d) →
  ∀ l d,
    foldl (report_step set) d l
    = foldl (λ d flag, <[lower (re_sub_annotation flag) := x]> d) d
            (filter (λ flag, flag ≠ "") l).
Proof.
  intros Hset l. induction l as [|flag l IH]; intros d; [done |].
  cbn [foldl]. rewrite IH. unfold report_step at 1.
  rewrite nonempty_length. case_bool_decide as Hflag.
  - rewrite filter_cons_True by done. cbn [foldl]. by rewrite Hset.
  - by rewrite filter_cons_False by (intros Hne; by apply Hne).
Qed.

Lemma report_fold_lookup set x report d n :
  (∀ n d, set n d = <[lower n := x]> d) →
  foldl (report_step set) d (split_on "," report) !! n
  = if bool_decide (n ∈ reported report) then Some x else d !! n.
Proof.
  intros Hset. rewrite (report_fold set x Hset).
  by rewrite (foldl_insert_lookup _ (λ _, x) _ _ n x).
Qed.

Lemma report_fold_dom set x report d :
  (∀ n d, set n d = <[lower n := x]> d) →
  dom (foldl (report_step set) d (split_on "," report))
  = dom d ∪ list_to_set (reported report).
Proof.
  intros Hset. rewrite (report_fold set x Hset).
  by rewrite (foldl_insert_dom _ (λ _, x)).
Qed.

Lemma default_dict_lookup d n :
  n ∈ host_flags_list →
  _create_default_host_flags_dict d !! n = Some Default.
Proof.
  intros Hn. unfold _create_default_host_flags_dict, _disable_consistent_lun.
  rewrite lookup_insert_ne
    by (intros <-; by apply consistent_lun_not_port_flag).
  unfold _set_to_default.
  rewrite (foldl_insert_lookup lower (λ _, Default) _ _ n Default) by done.
  rewrite bool_decide_eq_true_2; [done |].
  apply list_elem_of_fmap. exists n. by rewrite lower_canonical.
Qed.

Lemma default_dict_dom d :
  dom (_create_default_host_flags_dict d) = dom d ∪ payload_keys.
Proof.
  unfold _create_default_host_flags_dict, _disable_consistent_lun,
    _set_to_default.
  rewrite dom_insert_L, (foldl_insert_dom lower (λ _, Default)).
  unfold payload_keys. rewrite list_to_set_app_L.
  replace (lower <$> host_flags_list) with host_flags_list by reflexivity.
  set_solver.
Qed.

Lemma recreate_unfold h d0 :
  _recreate_host_flag_dict h d0
  = <["consistent_lun" := LunFlag (consistent_lun h)]>
      (foldl (report_step _set_to_disable)
         (foldl (report_step _set_to_enable)
            (_create_default_host_flags_dict d0)
            (split_on "," (enabled_flags h)))
         (split_on "," (disabled_flags h))).
Proof.
  unfold _recreate_host_flag_dict, _disable_consistent_lun,
    _enable_consistent_lun.
  by destruct (consistent_lun h).
Qed.

Lemma recreate_lookup h d0 n :
  n ∈ host_flags_list →
  _recreate_host_flag_dict h d0 !! n
  = Some (if bool_decide (n ∈ reported (disabled_flags h)) then Disabled
          else if bool_decide (n ∈ reported (enabled_flags h)) then Enabled
          else Default).
Proof.
  intros Hn. rewrite recreate_unfold.
  rewrite lookup_insert_ne
    by (intros <-; by apply consistent_lun_not_port_flag).
  rewrite (report_fold_lookup _ Disabled) by done.
  rewrite (report_fold_lookup _ Enabled) by done.
  rewrite default_dict_lookup by done.
  by repeat case_bool_decide.
Qed.

Lemma recreate_lookup_lun h d0 :
  _recreate_host_flag_dict h d0 !! "consistent_lun"
  = Some (LunFlag (consistent_lun h)).
Proof. by rewrite recreate_unfold, lookup_insert_eq. Qed.

Lemma recreate_dom h :
  dom (_recreate_host_flag_dict h ∅)
  = payload_keys ∪ list_to_set (reported (enabled_flags h))
      ∪ list_to_set (reported (disabled_flags h)).
Proof.
  rewrite recreate_unfold, dom_insert_L.
  rewrite (report_fold_dom _ Disabled), (report_fold_dom _ Enabled) by done.
  rewrite default_dict_dom, dom_empty_L.
  assert ("consistent_lun" ∈ payload_keys) by compute_done.
  set_solver.
Qed.

Lemma reported_annotated name ann report :
  "("%char ∉ chars name → ")"%char ∉ chars ann → newline ∉ chars ann →
  name +:+ "(" +:+ ann +:+ ")" ∈ split_on "," report →
  lower name ∈ reported report.
Proof.
  intros Hname Hann Hnl Hin. unfold reported.
  apply list_elem_of_fmap. exists (name +:+ "(" +:+ ann +:+ ")"). split.
  - by rewrite re_sub_annotated_end.
  - apply list_elem_of_filter. split; [| done].
    clear. by destruct name.
Qed.

(** C8: rebuilding the flag set from the remote report.  An annotation in
    parentheses after a flag name is removed, so an annotated item of a
    report counts as that name; and each of the eight flags is Disabled if
    the disabled report names it, else Enabled if the enabled report names
    it, else Default: Default exactly when neither report names it. *)
Theorem recreate_strips_annotations (h : host) (n name ann : string) :
  n ∈ host_flags_list →
  "("%char ∉ chars name → ")"%char ∉ chars ann → newline ∉ chars ann →
  let d := _recreate_host_flag_dict h ∅ in
  re_sub_annotation (name +:+ "(" +:+ ann +:+ ")") = name
  ∧ (∀ report, name +:+ "(" +:+ ann +:+ ")" ∈ split_on "," report →
               lower name ∈ reported report)
  ∧ d !! n
    = Some (if bool_decide (n ∈ reported (disabled_flags h)) then Disabled
            else if bool_decide (n ∈ reported (enabled_flags h)) then Enabled
            else Default)
  ∧ (d !! n = Some Default
     ↔ (n ∉ reported (enabled_flags h)) ∧ (n ∉ reported (disabled_flags h))).
Proof.
  intros Hn Hname Hann Hnl d. subst d. rewrite recreate_lookup by done.
  split; [| split; [| split]].
  - by apply re_sub_annotated_end.
  - intros report. by apply reported_annotated.
  - done.
  - repeat case_bool_decide; split; try done; try naive_solver.
Qed.

Lemma recreate_strips_annotations_witness :
  let h := Host "H1" None "SCSI_3(Ovrd),Volume_Set_Addressing(Ovrd)"
                "OpenVMS(Ovrd)" false in
  re_sub_annotation "SCSI_3(Ovrd)" = "SCSI_3"
  ∧ _recreate_host_flag_dict h ∅ !! "scsi_3" = Some Enabled
  ∧ _recreate_host_flag_dict h ∅ !! "openvms" = Some Disabled
  ∧ _recreate_host_flag_dict h ∅ !! "environ_set" = Some Default.
Proof.
  intros h.
  destruct (recreate_strips_annotations h "scsi_3" "SCSI_3" "Ovrd")
    as (Hstrip & _ & Hscsi & _); [compute_done .. |].
  destruct (recreate_strips_annotations h "openvms" "SCSI_3" "Ovrd")
    as (_ & _ & Hvms & _); [compute_done .. |].
  destruct (recreate_strips_annotations h "environ_set" "SCSI_3" "Ovrd")
    as (_ & _ & _ & Henv); [compute_done .. |].
  split; [exact Hstrip |]. split; [exact Hscsi |]. split; [exact Hvms |].
  apply Henv. split; compute_done.
Defined.

(** ** The initiator differ *)

Lemma add_initiators_set (e r : list string) :
  (list_to_set (_get_add_initiators e r) : gset string)
  = list_to_set r ∖ list_to_set e.
Proof.
  unfold _get_add_initiators. rewrite list_to_set_elements_L.
  rewrite list_to_set_app_L. set_solver.
Qed.

Lemma remove_initiators_set (e r : list string) :
  (list_to_set (_get_remove_initiators e r) : gset string)
  = list_to_set e ∩ list_to_set r.
Proof.
  unfold _get_remove_initiators. by rewrite list_to_set_elements_L.
Qed.

Lemma list_to_set_same (l l' : list string) :
  (∀ x, x ∈ l ↔ x ∈ l') → (list_to_set l : gset string) = list_to_set l'.
Proof. intros H. apply set_eq. intros x. rewrite !elem_of_list_to_set. apply H. Qed.

(** C4: the initiator differ is set algebra.  As sets, what is to add is
    the requested initiators without the existing ones, and what is to
    remove is the existing ones that are requested; both results are
    without duplicates and, up to the order in which they are listed,
    depend only on which initiators the two inputs contain, not on their
    order or repetitions; nothing to add is already present, everything to
    remove is both present and requested, and an empty request gives empty
    results. *)
Theorem initiator_differ_set_algebra (e r e' r' : list string) :
  (∀ x, x ∈ e ↔ x ∈ e') →
  (∀ x, x ∈ r ↔ x ∈ r') →
  (list_to_set (_get_add_initiators e r) : gset string)
  = list_to_set r ∖ list_to_set e
  ∧ (list_to_set (_get_remove_initiators e r) : gset string)
    = list_to_set e ∩ list_to_set r
  ∧ _get_add_initiators e' r' ≡ₚ _get_add_initiators e r
  ∧ _get_remove_initiators e' r' ≡ₚ _get_remove_initiators e r
  ∧ NoDup (_get_add_initiators e r)
  ∧ NoDup (_get_remove_initiators e r)
  ∧ (∀ x, x ∈ _get_add_initiators e r → x ∉ e)
  ∧ (∀ x, x ∈ _get_remove_initiators e r → x ∈ e ∧ x ∈ r)
  ∧ _get_add_initiators e [] = []
  ∧ _get_remove_initiators e [] = [].
Proof.
  intros He Hr.
  pose proof (list_to_set_same _ _ He) as Hes.
  pose proof (list_to_set_same _ _ Hr) as Hrs.
  split; [apply add_initiators_set |].
  split; [apply remove_initiators_set |].
  split.
  { apply NoDup_Permutation; [apply NoDup_elements .. |]. intros x.
    rewrite <- !(elem_of_list_to_set (C := gset string)), !add_initiators_set.
    by rewrite Hes, Hrs. }
  split.
  { apply NoDup_Permutation; [apply NoDup_elements .. |]. intros x.
    rewrite <- !(elem_of_list_to_set (C := gset string)),
      !remove_initiators_set.
    by rewrite Hes, Hrs. }
  split; [apply NoDup_elements |].
  split; [apply NoDup_elements |].
  split.
  { intros x Hx. unfold _get_add_initiators in Hx.
    apply elem_of_elements in Hx. set_solver. }
  split.
  { intros x Hx. unfold _get_remove_initiators in Hx.
    apply elem_of_elements in Hx. set_solver. }
  split.
  - unfold _get_add_initiators. rewrite app_nil_r.
    rewrite difference_diag_L. apply elements_empty.
  - unfold _get_remove_initiators. rewrite list_to_set_nil.
    rewrite (right_absorb_L ∅ (∩)). apply elements_empty.
Qed.

Lemma initiator_differ_set_algebra_witness :
  _get_add_initiators ["iqn.b"; "iqn.a"; "iqn.a"] ["iqn.c"; "iqn.a"; "iqn.c"]
  ≡ₚ _get_add_initiators ["iqn.a"; "iqn.b"] ["iqn.a"; "iqn.c"]
  ∧ (list_to_set (_get_add_initiators ["iqn.a"; "iqn.b"] ["iqn.a"; "iqn.c"])
       : gset string)
    = list_to_set ["iqn.a"; "iqn.c"] ∖ list_to_set ["iqn.a"; "iqn.b"].
Proof.
  pose proof (initiator_differ_set_algebra
                ["iqn.a"; "iqn.b"] ["iqn.a"; "iqn.c"]
                ["iqn.b"; "iqn.a"; "iqn.a"] ["iqn.c"; "iqn.a"; "iqn.c"])
    as H.
  destruct H as (Hadd & _ & Horder & _).
  - intros x. rewrite !elem_of_cons, !elem_of_nil. tauto.
  - intros x. rewrite !elem_of_cons, !elem_of_nil. tauto.
  - split; [exact Horder | exact Hadd].
Defined.

Example add_initiators_example :
  _get_add_initiators ["iqn.a"; "iqn.b"] ["iqn.c"; "iqn.a"; "iqn.c"]
  = ["iqn.c"].
Proof. vm_compute. reflexivity. Qed.

(** ** Sequencing and the log of calls *)

Lemma bind_unfold {remote A B} (m : M remote A) (k : A → M remote B) r :
  (m ≫= k) r
  = match m r with
    | (Value a, r1, t1) => let '(o, r2, t2) := k a r1 in (o, r2, (t1 ++ t2)%list)
    | (fail_json msg, r1, t1) => (fail_json msg, r1, t1)
    | (exit_json c d, r1, t1) => (exit_json c d, r1, t1)
    | (Uncaught, r1, t1) => (Uncaught, r1, t1)
    end.
Proof. reflexivity. Qed.

Lemma quiet_app t1 t2 : quiet t1 → quiet t2 → quiet (t1 ++ t2)%list.
Proof. unfold quiet. intros. by apply Forall_app. Qed.

Lemma fails_fast_ret {remote A} (a : A) (r : remote) :
  fails_fast ((mret a : M remote A) r).
Proof. unfold fails_fast, quiet. simpl. constructor. Qed.

Lemma fails_fast_stop {remote A} (o : outcome A) (r : remote) :
  (∀ msg, o ≠ fail_json msg) → fails_fast (stop o r).
Proof.
  intros Ho. unfold fails_fast, stop, quiet. simpl.
  destruct o; try constructor. by destruct (Ho msg).
Qed.

Lemma fails_fast_bind {remote A B} (m : M remote A) (k : A → M remote B) r :
  fails_fast (m r) → (∀ a r', fails_fast (k a r')) →
  fails_fast ((m ≫= k) r).
Proof.
  intros Hm Hk. rewrite bind_unfold.
  destruct (m r) as [[o r1] t1]. unfold fails_fast in Hm. simpl in Hm.
  destruct o as [a | msg | c d |]; try exact Hm.
  specialize (Hk a r1). destruct (k a r1) as [[o2 r2] t2].
  unfold fails_fast in *. simpl in *.
  destruct o2 as [b | msg | c d |]; try (by apply quiet_app).
  destruct Hk as (pre & c & e & post & -> & Hpre & Hc & Hmsg & Hpost).
  exists (t1 ++ pre)%list, c, e, post.
  rewrite <- (assoc_L (++)%list). auto using quiet_app.
Qed.

Lemma emits_ret {remote A} P (a : A) : emits (remote := remote) P (mret a).
Proof. intros r. constructor. Qed.

Lemma emits_stop {remote A} P (o : outcome A) :
  emits (remote := remote) P (stop o).
Proof. intros r. constructor. Qed.

Lemma emits_bind {remote A B} P (m : M remote A) (k : A → M remote B) :
  emits P m → (∀ a, emits P (k a)) → emits P (m ≫= k).
Proof.
  intros Hm Hk r. rewrite bind_unfold. specialize (Hm r).
  destruct (m r) as [[o r1] t1]. simpl in Hm.
  destruct o as [a | msg | c d |]; try exact Hm.
  specialize (Hk a r1). destruct (k a r1) as [[o2 r2] t2]. simpl in *.
  by apply Forall_app.
Qed.

Lemma occurs_in_refl s : occurs_in s s.
Proof. exists "", "". by rewrite app_empty_r. Qed.

Lemma occurs_in_end pre s : occurs_in s (pre +:+ s).
Proof. exists pre, "". by rewrite app_empty_r. Qed.

Lemma append_assoc (a b c : string) : (a +:+ b) +:+ c = a +:+ b +:+ c.
Proof.
  induction a as [|x a IH]; [done |].
  change (String x ((a +:+ b) +:+ c) = String x (a +:+ b +:+ c)).
  by rewrite IH.
Qed.

Lemma occurs_in_middle pre s post : occurs_in s (pre +:+ s +:+ post).
Proof. by exists pre, post. Qed.

Lemma names_create_failure name inits flags e :
  names_failure
    (Text ("Create host " +:+ name +:+ " failed with error " +:+ e))
    (create_host_call name inits flags) e.
Proof.
  repeat split; simpl.
  - by exists "", (" " +:+ name +:+ " failed with error " +:+ e).
  - apply occurs_in_middle.
  - exists ("Create host " +:+ name +:+ " failed with error "), "".
    by rewrite app_empty_r, !append_assoc.
Qed.

Lemma names_tuple_failure fmt items e c :
  occurs_in (operation_of c) fmt →
  MStr (host_of c) ∈ items → MStr e ∈ items →
  names_failure (Tuple (MStr fmt :: items)) c e.
Proof.
  intros Hop Hname He. repeat split; simpl.
  - exists fmt. split; [by left | done].
  - exists (host_of c). split; [by right | apply occurs_in_refl].
  - exists e. split; [by right | apply occurs_in_refl].
Qed.

Section Run.
Context {remote : Type}.
Variable serve : remote → request → remote * reply.

Lemma call_unfold c r :
  call serve c r = (Value (serve r c).2, (serve r c).1, [(c, (serve r c).2)]).
Proof. unfold call. by destruct (serve r c). Qed.

Lemma fails_fast_call_plain {A} c (k : reply → M remote A) r :
  mutation c = false →
  (∀ a r', fails_fast (k a r')) →
  fails_fast ((call serve c ≫= k) r).
Proof.
  intros Hc Hk. apply fails_fast_bind; [| done].
  rewrite call_unfold. unfold fails_fast, quiet. simpl.
  constructor; [| constructor]. simpl. by destruct (serve r c).2.
Qed.

Lemma fails_fast_show_error_exit {A} c e msg pre r :
  mutation c = true → names_failure msg c e → quiet pre →
  ∃ r' a,
    show_error_exit (A := A) serve msg r
    = (fail_json msg, r', [(close_connection, a)])
    ∧ fails_fast (A := A)
        (fail_json msg, r', (pre ++ [(c, Raised e); (close_connection, a)])%list).
Proof.
  intros Hc Hmsg Hpre. unfold show_error_exit.
  rewrite bind_unfold, call_unfold. simpl.
  eexists _, _. split; [reflexivity |].
  unfold fails_fast. simpl. exists pre, c, e, [(close_connection, (serve r close_connection).2)].
  repeat split; try done; try apply Hmsg.
  constructor; [done | constructor].
Qed.

(** A mutation whose exception handler is [show_error_exit]. *)
Lemma fails_fast_mutation {A} c (k : reply → M remote A) r :
  mutation c = true →
  (∀ h r', fails_fast (k (Returned h) r')) →
  (∀ e, ∃ msg, k (Raised e) = show_error_exit serve msg
               ∧ names_failure msg c e) →
  fails_fast ((call serve c ≫= k) r).
Proof.
  intros Hc Hret Hraise. rewrite bind_unfold, call_unfold.
  destruct (serve r c) as [r1 [h | e]]; simpl.
  - specialize (Hret h r1). destruct (k (Returned h) r1) as [[o r2] t2].
    unfold fails_fast in *. simpl in *.
    destruct o as [b | msg | ch d |];
      try (constructor; [done | exact Hret]).
    destruct Hret as (pre & c' & e & post & -> & Hpre & Hc' & Hmsg & Hpost).
    exists ((c, Returned h) :: pre), c', e, post.
    repeat split; try done; try apply Hmsg. by constructor.
  - destruct (Hraise e) as (msg & -> & Hmsg).
    destruct (fails_fast_show_error_exit (A := A) c e msg [] r1 Hc Hmsg)
      as (r' & a & -> & Hff); [constructor |].
    exact Hff.
Qed.

Lemma fails_fast_get_host {A} name (k : option host → M remote A) r :
  (∀ h r', fails_fast (k h r')) →
  fails_fast ((get_host serve name ≫= k) r).
Proof.
  intros Hk. apply fails_fast_bind; [| done].
  unfold get_host. apply fails_fast_call_plain; [done |].
  intros [h | e] r'; apply fails_fast_ret.
Qed.

Ltac names_tuple :=
  apply names_tuple_failure; simpl;
  [ by eexists "", _ | set_solver | set_solver ].

Lemma create_host_fails_fast p name r :
  fails_fast (create_host serve p name r).
Proof.
  unfold create_host. apply fails_fast_mutation; [done | |].
  - intros; apply fails_fast_ret.
  - intros e. eexists. split; [done |]. apply names_create_failure.
Qed.

Lemma add_host_initiators_fails_fast name inits r :
  fails_fast (add_host_initiators serve name inits r).
Proof.
  unfold add_host_initiators. apply fails_fast_get_host. intros h r'.
  destruct (_ && _); [apply fails_fast_ret |].
  destruct (_ <? _)%nat; [| apply fails_fast_ret].
  apply fails_fast_mutation; [done | |].
  - intros; apply fails_fast_ret.
  - intros e. eexists. split; [done |]. names_tuple.
Qed.

Lemma remove_host_initiators_fails_fast name inits r :
  fails_fast (remove_host_initiators serve name inits r).
Proof.
  unfold remove_host_initiators. apply fails_fast_get_host. intros h r'.
  case_bool_decide; [apply fails_fast_ret |].
  destruct (_ <? _)%nat; [| apply fails_fast_ret].
  apply fails_fast_mutation; [done | |].
  - intros; apply fails_fast_ret.
  - intros e. eexists. split; [done |]. names_tuple.
Qed.

Lemma rename_host_fails_fast name new r :
  fails_fast (rename_host serve name new r).
Proof.
  unfold rename_host. apply fails_fast_mutation; [done | |].
  - intros; apply fails_fast_ret.
  - intros e. eexists. split; [done |]. names_tuple.
Qed.

Lemma modify_host_flags_fails_fast name rf r :
  fails_fast (modify_host_flags serve name rf r).
Proof.
  unfold modify_host_flags. apply fails_fast_get_host. intros [h |] r'.
  - case_bool_decide; [apply fails_fast_ret |].
    apply fails_fast_mutation; [done | |].
    + intros; apply fails_fast_ret.
    + intros e. eexists. split; [done |]. names_tuple.
  - by apply fails_fast_stop.
Qed.

Lemma delete_host_fails_fast name r :
  fails_fast (delete_host serve name r).
Proof.
  unfold delete_host. apply fails_fast_mutation; [done | |].
  - intros; apply fails_fast_ret.
  - intros e. eexists. split; [done |]. names_tuple.
Qed.

Lemma _create_result_dict_fails_fast p changed r :
  fails_fast (_create_result_dict serve p changed r).
Proof.
  unfold _create_result_dict.
  case_bool_decide; [apply fails_fast_ret |].
  destruct (truthy_str _); apply fails_fast_get_host;
    intros; apply fails_fast_ret.
Qed.

Lemma perform_module_operation_fails_fast p r :
  fails_fast (perform_module_operation serve p r).
Proof.
  unfold perform_module_operation.
  apply fails_fast_get_host. intros h r0.
  apply fails_fast_bind.
  { destruct (_ && _); [apply create_host_fails_fast | apply fails_fast_ret]. }
  intros c1 r1. apply fails_fast_bind.
  { destruct (_ && _); [| apply fails_fast_ret].
    apply fails_fast_bind; [apply add_host_initiators_fails_fast |].
    intros; apply fails_fast_ret. }
  intros c2 r2. apply fails_fast_bind.
  { destruct (_ && _); [| apply fails_fast_ret].
    apply fails_fast_bind; [apply remove_host_initiators_fails_fast |].
    intros; apply fails_fast_ret. }
  intros c3 r3. apply fails_fast_bind.
  { destruct (_ && _); [| apply fails_fast_ret].
    apply fails_fast_bind; [apply modify_host_flags_fails_fast |].
    intros; apply fails_fast_ret. }
  intros c4 r4. apply fails_fast_bind.
  { destruct h as [h |]; [| apply fails_fast_ret].
    destruct (new_name p) as [new |]; [| apply fails_fast_ret].
    destruct (_ && _); [apply rename_host_fails_fast | apply fails_fast_ret]. }
  intros c5 r5. apply fails_fast_bind.
  { destruct (_ && _); [| apply fails_fast_ret].
    apply fails_fast_bind; [apply delete_host_fails_fast |].
    intros; apply fails_fast_ret. }
  intros c6 r6. apply fails_fast_bind.
  { apply _create_result_dict_fails_fast. }
  intros res r7. apply fails_fast_call_plain; [done |].
  intros [h' | e] r8; by apply fails_fast_stop.
Qed.

Lemma single_failure pre c e post pre0 c0 e0 post0 :
  (pre ++ (c, Raised e) :: post)%list
  = (pre0 ++ (c0, Raised e0) :: post0)%list →
  quiet pre → Forall closes post → mutation c0 = true →
  pre = pre0 ∧ c = c0 ∧ e = e0 ∧ post = post0.
Proof.
  revert pre0. induction pre as [|x pre IH]; intros [|y pre0] Heq Hq Hpost Hc0.
  - by injection Heq as -> -> ->.
  - injection Heq as <- ->.
    apply Forall_app in Hpost as [_ Hpost]. apply Forall_cons in Hpost as [Hcl _].
    unfold closes in Hcl. simpl in Hcl. by subst c0.
  - injection Heq as -> _. apply Forall_cons in Hq as [Hx _].
    simpl in Hx. congruence.
  - injection Heq as -> Heq. apply Forall_cons in Hq as [Hx Hq].
    destruct (IH pre0 Heq Hq Hpost Hc0) as (-> & -> & -> & ->). done.
Qed.

(** C9: a failing mutation is fatal for the run.  Whenever a create,
    add-initiators, remove-initiators, set-flags, rename or delete call
    raises during a run, the run ends in [fail_json] with a message that
    mentions the operation, the host and the cause; no mutation failed
    before it, and after it the module only closes the connection.  A
    delete that the array rejects is one such call. *)
Theorem mutation_failure_is_fatal
    (p : params) (r : remote) (pre post : list event)
    (c : request) (e : string) :
  (perform_module_operation serve p r).2
  = (pre ++ (c, Raised e) :: post)%list →
  mutation c = true →
  ∃ msg,
    (perform_module_operation serve p r).1.1 = fail_json msg
    ∧ mentions msg (operation_of c)
    ∧ mentions msg (host_of c)
    ∧ mentions msg e
    ∧ quiet pre
    ∧ Forall closes post.
Proof.
  intros Hlog Hc.
  pose proof (perform_module_operation_fails_fast p r) as Hff.
  unfold fails_fast in Hff.
  destruct (perform_module_operation serve p r) as [[o r'] t].
  simpl in *. subst t.
  assert (¬ quiet (pre ++ (c, Raised e) :: post)%list) as Hloud.
  { intros Hq. apply Forall_app in Hq as [_ Hq].
    apply Forall_cons in Hq as [Hq _]. simpl in Hq. congruence. }
  destruct o as [a | msg | ch d |]; try done.
  destruct Hff as (pre1 & c1 & e1 & post1 & Heq & Hpre & _ & Hmsg & Hpost).
  symmetry in Heq.
  destruct (single_failure _ _ _ _ _ _ _ _ Heq Hpre Hpost Hc)
    as (-> & -> & -> & ->).
  exists msg. destruct Hmsg as (? & ? & ?). done.
Qed.

(** *** The fetch and the create step *)

Lemma get_host_unfold name r :
  get_host serve name r
  = (Value (match (serve r (get_host_call name)).2 with
            | Returned h => h
            | Raised _ => None
            end),
     (serve r (get_host_call name)).1,
     [(get_host_call name, (serve r (get_host_call name)).2)]).
Proof.
  unfold get_host. rewrite bind_unfold, call_unfold.
  by destruct (serve r (get_host_call name)).2.
Qed.

Lemma bind_head {A B} (m : M remote A) (k : A → M remote B) r ev :
  (∃ o r' t, m r = (o, r', ev :: t)) →
  ∃ o r' t, (m ≫= k) r = (o, r', ev :: t).
Proof.
  intros (o & r' & t & Hm). rewrite bind_unfold, Hm.
  destruct o as [a | msg | c d |]; try by eexists _, _, _.
  destruct (k a r') as [[o2 r2] t2]. by eexists _, _, _.
Qed.

Lemma create_host_head p name r :
  ∃ o r' t,
    create_host serve p name r
    = (o, r',
       (create_host_call name (create_initiators p) (create_flags p),
        (serve r (create_host_call name (create_initiators p)
                    (create_flags p))).2) :: t).
Proof.
  unfold create_host. apply bind_head. rewrite call_unfold.
  replace (match initiator_state p with
           | Some present_in_host => initiators p
           | _ => None
           end) with (create_initiators p)
    by (unfold create_initiators; by destruct (initiator_state p) as [[]|]).
  by eexists _, _, _.
Qed.

Lemma run_creates_when_not_found p r :
  state p = present → host_name p ≠ "" →
  (get_host serve (host_name p) r).1.1 = Value None →
  ∃ rest,
    (perform_module_operation serve p r).2
    = (get_host_call (host_name p),
       (serve r (get_host_call (host_name p))).2)
      :: (create_host_call (host_name p) (create_initiators p)
            (create_flags p),
          (serve (serve r (get_host_call (host_name p))).1
             (create_host_call (host_name p) (create_initiators p)
                (create_flags p))).2)
      :: rest.
Proof.
  intros Hstate Hname Hnone. unfold perform_module_operation.
  rewrite bind_unfold. rewrite get_host_unfold in Hnone |- *.
  simpl in Hnone. injection Hnone as Hnone. rewrite Hnone.
  rewrite Hstate. unfold nonempty_str.
  rewrite (bool_decide_eq_false_2 (host_name p = "")) by done.
  rewrite (bool_decide_eq_true_2 (present = present)) by done.
  rewrite (bool_decide_eq_false_2 (is_Some None)) by (by intros [? ?]).
  cbn [negb andb].
  match goal with
  | |- context [ (create_host serve p ?n ≫= ?k) ?r1 ] =>
      destruct (bind_head (create_host serve p n) k r1 _
                  (create_host_head p n r1)) as (o & r' & t & ->)
  end.
  by eexists.
Qed.

(** C7: the create step.  When the host is not found, the desired state
    is present and the name is not empty, the call after the fetch is the
    create call, and its initiator list is the supplied one when
    [initiator_state] is present-in-host and none when it is
    absent-in-host or not given. *)
Theorem create_discards_unwanted_initiators (p : params) (r : remote) :
  state p = present → host_name p ≠ "" →
  (get_host serve (host_name p) r).1.1 = Value None →
  ∃ fetched flags created rest,
    (perform_module_operation serve p r).2
    = (get_host_call (host_name p), fetched)
      :: (create_host_call (host_name p)
            (match initiator_state p with
             | Some present_in_host => initiators p
             | Some absent_in_host => None
             | None => None
             end)
            flags, created)
      :: rest.
Proof.
  intros Hstate Hname Hnone.
  destruct (run_creates_when_not_found p r Hstate Hname Hnone) as [rest ->].
  by eexists _, _, _, _.
Qed.


(** *** The flag sets handed to the array *)

Lemma emits_call P c : (∀ a, P (c, a)) → emits P (call serve c).
Proof.
  intros HP r. rewrite call_unfold. simpl. constructor; [apply HP | constructor].
Qed.

Lemma emits_show_error_exit {A} rf msg :
  emits (payload_from rf) (show_error_exit (A := A) serve msg).
Proof.
  unfold show_error_exit. apply emits_bind.
  - by apply emits_call.
  - intros. apply emits_stop.
Qed.

Lemma emits_get_host rf name : emits (payload_from rf) (get_host serve name).
Proof.
  unfold get_host. apply emits_bind.
  - by apply emits_call.
  - intros [h | e]; apply emits_ret.
Qed.

Lemma emits_mutation rf c (msg : string → message) :
  (∀ a, payload_from rf (c, a)) →
  emits (payload_from rf)
    (a ← call serve c;
     match a with
     | Returned _ => mret true
     | Raised e => show_error_exit serve (msg e)
     end).
Proof.
  intros Hc. apply emits_bind; [by apply emits_call |].
  intros [h | e]; [apply emits_ret | apply emits_show_error_exit].
Qed.

Lemma perform_module_operation_payloads p :
  emits (payload_from (default [] (host_flags p)))
        (perform_module_operation serve p).
Proof.
  set (rf := default [] (host_flags p)).
  unfold perform_module_operation.
  apply emits_bind; [apply emits_get_host |]. intros h.
  apply emits_bind.
  { destruct (_ && _); [| apply emits_ret].
    unfold create_host. apply emits_mutation. intros a.
    unfold payload_from, rf. simpl.
    by destruct (host_flags p) as [[|kv rf']|]. }
  intros c1. apply emits_bind.
  { destruct (_ && _); [| apply emits_ret].
    apply emits_bind; [| intros; apply emits_ret].
    unfold add_host_initiators.
    apply emits_bind; [apply emits_get_host |]. intros h'.
    destruct (_ && _); [apply emits_ret |].
    destruct (_ <? _)%nat; [| apply emits_ret].
    by apply emits_mutation. }
  intros c2. apply emits_bind.
  { destruct (_ && _); [| apply emits_ret].
    apply emits_bind; [| intros; apply emits_ret].
    unfold remove_host_initiators.
    apply emits_bind; [apply emits_get_host |]. intros h'.
    case_bool_decide; [apply emits_ret |].
    destruct (_ <? _)%nat; [| apply emits_ret].
    by apply emits_mutation. }
  intros c3. apply emits_bind.
  { destruct (_ && _); [| apply emits_ret].
    apply emits_bind; [| intros; apply emits_ret].
    unfold modify_host_flags.
    apply emits_bind; [apply emits_get_host |]. intros [h' |].
    - case_bool_decide; [apply emits_ret |].
      apply emits_mutation. intros a. unfold payload_from. simpl.
      by exists h'.
    - apply emits_stop. }
  intros c4. apply emits_bind.
  { destruct h as [h |]; [| apply emits_ret].
    destruct (new_name p) as [new |]; [| apply emits_ret].
    destruct (_ && _); [| apply emits_ret].
    unfold rename_host. by apply emits_mutation. }
  intros c5. apply emits_bind.
  { destruct (_ && _); [| apply emits_ret].
    apply emits_bind; [| intros; apply emits_ret].
    unfold delete_host. by apply emits_mutation. }
  intros c6. apply emits_bind.
  { unfold _create_result_dict.
    case_bool_decide; [apply emits_ret |].
    destruct (truthy_str _);
      (apply emits_bind; [apply emits_get_host | intros; apply emits_ret]). }
  intros res. apply emits_bind; [by apply emits_call |].
  intros [h' | e]; apply emits_stop.
Qed.

End Run.

(** ** Completeness of the flag sets *)

Lemma overlay_tri_state rf B name :
  name ∈ host_flags_list →
  (∃ v, B !! name = Some v ∧ tri_state v) →
  ∃ v, overlay rf B !! name = Some v ∧ tri_state v.
Proof.
  intros Hn HB. rewrite overlay_fold.
  apply (foldl_insert_invariant lower _ tri_state); [| done].
  intros k Hk Hlow. apply overlay_rule_tri_state. intros ->.
  apply consistent_lun_not_port_flag. rewrite <- Hlow in Hn. exact Hn.
Qed.

Lemma recreate_tri_state h name :
  name ∈ host_flags_list →
  ∃ v, _recreate_host_flag_dict h ∅ !! name = Some v ∧ tri_state v.
Proof.
  intros Hn. rewrite recreate_lookup by done. eexists. split; [done |].
  unfold tri_state. repeat case_bool_decide; auto.
Qed.

Section Payloads.
Context {remote : Type}.
Variable serve : remote → request → remote * reply.

(** X22: no partial flag set reaches the array.  The set given to the
    create call has exactly the eight flag names and [consistent_lun] as
    keys, each flag in one of the three states and [consistent_lun] a
    boolean.  The set given to the modify call has all of these keys, each
    flag in one of the three states. *)
Theorem payloads_are_complete
    (p : params) (r : remote) (ev : event) (name : string) :
  ev ∈ (perform_module_operation serve p r).2 →
  name ∈ host_flags_list →
  match ev.1 with
  | create_host_call _ _ (Some d) =>
      dom d = payload_keys
      ∧ (∃ v, d !! name = Some v ∧ tri_state v)
      ∧ (∃ b, d !! "consistent_lun" = Some (LunFlag b))
  | modify_host_call _ (host_flag_dict d) =>
      payload_keys ⊆ dom d
      ∧ (∃ v, d !! name = Some v ∧ tri_state v)
  | _ => True
  end.
Proof.
  intros Hev Hn.
  pose proof (perform_module_operation_payloads serve p r) as Hall.
  rewrite Forall_forall in Hall. specialize (Hall ev Hev).
  unfold payload_from in Hall.
  destruct ev.1 as [| n inits [d |] | n [| | d |] | |]; try done.
  - subst d. split; [apply create_dict_dom |]. split.
    + rewrite create_dict_lookup by done. eexists. split; [done |].
      apply create_rule_tri_state.
    + rewrite create_dict_lookup_lun. by eexists.
  - destruct Hall as [h ->].
    assert (dom (overlay (default [] (host_flags p))
                   (_recreate_host_flag_dict h ∅))
            = payload_keys
                ∪ list_to_set (reported (enabled_flags h))
                ∪ list_to_set (reported (disabled_flags h))
                ∪ list_to_set (lower <$> py_keys (default [] (host_flags p))))
      as Hdom by (by rewrite overlay_dom, recreate_dom).
    split; [rewrite Hdom; set_solver |].
    apply overlay_tri_state; [done |]. by apply recreate_tri_state.
Qed.

End Payloads.

Lemma payloads_are_complete_witness :
  let rf := [("scsi_3", PyBool true); ("spc2_protocol_version", PyStr "unset")] in
  let d := overlay rf (_recreate_host_flag_dict host_H1 ∅) in
  payload_keys ⊆ dom d ∧ ∃ v, d !! "scsi_3" = Some v ∧ tri_state v.
Proof.
  intros rf d.
  pose proof (payloads_are_complete array_serve
                (Params "H1" None present None (Some rf) None) masked_array
                (modify_host_call "H1" (host_flag_dict d), Returned None)
                "scsi_3") as H.
  simpl in H. destruct H as (Hdom & Hstate).
  - apply (list_elem_of_lookup_2 _ 2). vm_compute. reflexivity.
  - compute_done.
  - split; [exact Hdom | exact Hstate].
Defined.

(** C6 (the run that shows the defect): a key that is not a flag name
    reaches the array.  With [bogus: true] in the received flags of an
    existing host, the flag set given to the modify call has the key
    "bogus", which is none of the nine; on the create path the same key
    is dropped. *)
Lemma unrecognised_key_reaches_array :
  let rf := [("bogus", PyBool true)] in
  let d := overlay rf (_recreate_host_flag_dict host_H1 ∅) in
  (run_on_array (Params "H1" None present None (Some rf) None) masked_array).2
    !! 2%nat
  = Some (modify_host_call "H1" (host_flag_dict d), Returned None)
  ∧ "bogus" ∈ dom d
  ∧ ("bogus" ∉ payload_keys)
  ∧ dom d ≠ payload_keys
  ∧ dom (_create_host_flags_dict rf ∅) = payload_keys.
Proof.
  intros rf d.
  assert ("bogus" ∈ dom d) as Hin by compute_done.
  assert ("bogus" ∉ payload_keys) as Hout by compute_done.
  split; [vm_compute; reflexivity |].
  split; [done |]. split; [done |].
  split; [| apply create_dict_dom].
  intros Heq. apply Hout. by rewrite <- Heq.
Qed.

Lemma create_discards_unwanted_initiators_witness :
  ∃ fetched flags created rest,
    (run_on_array
       (Params "H1" (Some ["iqn.a"]) present (Some absent_in_host) None None)
       empty_array).2
    = (get_host_call "H1", fetched)
      :: (create_host_call "H1" None flags, created) :: rest.
Proof.
  apply (create_discards_unwanted_initiators array_serve
           (Params "H1" (Some ["iqn.a"]) present (Some absent_in_host)
                   None None) empty_array).
  - reflexivity.
  - discriminate.
  - vm_compute. reflexivity.
Defined.

(** The scenario of the specification: a host that does not exist yet is
    created with the initiators asked to be present in it. *)
Example create_with_initiators :
  (run_on_array
     (Params "H1" (Some ["iqn.a"]) present (Some present_in_host) None None)
     empty_array).2 !! 1%nat
  = Some (create_host_call "H1" (Some ["iqn.a"]) None, Returned None).
Proof. vm_compute. reflexivity. Qed.

Lemma mutation_failure_is_fatal_witness :
  ∃ msg,
    (run_on_array (Params "H1" None absent None None None) masked_array).1.1
    = fail_json msg
    ∧ mentions msg "Delete host"
    ∧ mentions msg "H1"
    ∧ mentions msg "host is part of a masking view"
    ∧ quiet [(get_host_call "H1", Returned (Some host_H1))]
    ∧ Forall closes [(close_connection, Returned None)].
Proof.
  apply (mutation_failure_is_fatal array_serve
           (Params "H1" None absent None None None) masked_array
           [(get_host_call "H1", Returned (Some host_H1))]
           [(close_connection, Returned None)]
           (delete_host_call "H1") "host is part of a masking view").
  - vm_compute. reflexivity.
  - reflexivity.
Defined.


(** C3 (the run that shows the defect): H1 does not exist, the desired
    state is present and a new name H2 is given.  The module creates H1,
    renames nothing, and then fetches the final snapshot under H2: the
    result carries no host details although H1 now exists. *)
Theorem snapshot_after_create_uses_new_name :
  let p := Params "H1" None present None None (Some "H2") in
  let res := run_on_array p empty_array in
  res.2 = [ (get_host_call "H1", Raised "host not found");
            (create_host_call "H1" None None, Returned None);
            (get_host_call "H2", Raised "host not found");
            (close_connection, Returned None) ]
  ∧ res.1.1 = exit_json true (Fetched None)
  ∧ hosts res.1.2 !! "H1" = Some (Host "H1" None "" "" false)
  ∧ hosts res.1.2 !! "H2" = None.
Proof. repeat split; vm_compute; reflexivity. Qed.

(** C1 (the runs that show the defect): the same parameters, with
    [scsi_3: "yes"], applied twice.  The first run finds no host and
    creates it with scsi_3 Enabled, as the create-path normaliser says; the
    second run finds the host, resets scsi_3 to Default through the overlay
    and reports a change. *)
Theorem unrecognised_value_is_reset_by_second_run :
  let rf := [("scsi_3", PyStr "yes")] in
  let p := Params "H1" None present None (Some rf) None in
  let first := run_on_array p empty_array in
  let created := Host "H1" None "scsi_3" "" false in
  let second := run_on_array p first.1.2 in
  first.2 !! 1%nat
  = Some (create_host_call "H1" None (Some (_create_host_flags_dict rf ∅)),
          Returned None)
  ∧ _create_host_flags_dict rf ∅ !! "scsi_3" = Some Enabled
  ∧ hosts first.1.2 !! "H1" = Some created
  ∧ second.2 !! 2%nat
    = Some (modify_host_call "H1"
              (host_flag_dict
                 (overlay rf (_recreate_host_flag_dict created ∅))),
            Returned None)
  ∧ _recreate_host_flag_dict created ∅ !! "scsi_3" = Some Enabled
  ∧ overlay rf (_recreate_host_flag_dict created ∅) !! "scsi_3"
    = Some Default
  ∧ second.1.1
    = exit_json true (Fetched (Some (Host "H1" None "" "" false))).
Proof. repeat split; vm_compute; reflexivity. Qed.

(** ** Further runs of the model *)

Example split_report :
  split_on "," "SCSI_3(Ovrd),,SPC2_Protocol_Version"
  = ["SCSI_3(Ovrd)"; ""; "SPC2_Protocol_Version"].
Proof. reflexivity. Qed.

Example strip_report : re_sub_annotation "a(x)(y(z)b)c(" = "ab)c(".
Proof. reflexivity. Qed.

(** Flags given as in the specification's scenario, against a host whose
    flags are all at their default. *)
Example modify_flags_scenario :
  let rf := [("spc2_protocol_version", PyBool true);
             ("volume_set_addressing", PyStr "unset")] in
  let d := overlay rf (_recreate_host_flag_dict host_H1 ∅) in
  d !! "spc2_protocol_version" = Some Enabled
  ∧ d !! "volume_set_addressing" = Some Default
  ∧ d !! "openvms" = Some Default
  ∧ d !! "consistent_lun" = Some (LunFlag false).
Proof. repeat split; vm_compute; reflexivity. Qed.

(** Asking for an initiator that the host already has changes nothing. *)
Example add_present_initiator :
  run_on_array
    (Params "H1" (Some ["iqn.a"]) present (Some present_in_host) None None)
    masked_array
  = (exit_json false (Fetched (Some host_H1)), masked_array,
     [ (get_host_call "H1", Returned (Some host_H1));
       (get_host_call "H1", Returned (Some host_H1));
       (get_host_call "H1", Returned (Some host_H1));
       (close_connection, Returned None) ]).
Proof. vm_compute. reflexivity. Qed.

(* ===================================================================== *)
(** * Further properties of the module *)
(* ===================================================================== *)

(** ** Keys and their casing *)

(** X1: the create-path normaliser reads the received dictionary only at
    the eight flag names and at [consistent_lun], spelled exactly: two
    dictionaries that agree there give the same flag set, so any other key
    (an unknown flag, or a flag name in another casing) is ignored. *)
Theorem create_reads_only_canonical_keys
    (rf rf' : pydict) (d0 : gmap string flag_value) :
  (∀ n, n ∈ host_flags_list ∨ n = "consistent_lun" →
        py_get n rf = py_get n rf') →
  _create_host_flags_dict rf d0 = _create_host_flags_dict rf' d0.
Proof.
  intros Hsame. rewrite !create_dict_unfold.
  rewrite (Hsame "consistent_lun") by (by right). f_equal.
  rewrite (foldl_agree _ (λ d k, <[lower k := create_rule (py_get k rf)]> d))
    by (intros; apply create_flag_step_insert).
  rewrite (foldl_agree (create_flag_step rf')
             (λ d k, <[lower k := create_rule (py_get k rf')]> d))
    by (intros; apply create_flag_step_insert).
  apply foldl_agree. intros d k Hk. rewrite (Hsame k) by (by left). done.
Qed.

Lemma create_reads_only_canonical_keys_witness :
  _create_host_flags_dict
    [("SCSI_3", PyBool true); ("bogus", PyStr "x"); ("openvms", PyBool false)] ∅
  = _create_host_flags_dict [("openvms", PyBool false)] ∅.
Proof.
  apply create_reads_only_canonical_keys.
  intros n [Hn | ->]; [| reflexivity].
  unfold host_flags_list in Hn.
  repeat (apply elem_of_cons in Hn as [-> | Hn]; [reflexivity |]).
  by apply elem_of_nil in Hn.
Defined.

Lemma overlay_lookup_folded rf (B : gmap string flag_value) k v :
  py_get k rf = Some v →
  (∀ k', k' ∈ py_keys rf → lower k' = lower k → k' = k) →
  overlay rf B !! lower k = Some (overlay_rule k v).
Proof.
  intros Hv Huniq. rewrite overlay_fold.
  rewrite (foldl_insert_lookup lower _ _ _ _ (overlay_rule k v)).
  - rewrite bool_decide_eq_true_2; [done |].
    apply list_elem_of_fmap. exists k. split; [done |].
    apply dec_stable. intros Hn. apply py_get_None in Hn. congruence.
  - intros k' Hk' Hlow. rewrite (Huniq k' Hk' Hlow), Hv. done.
Qed.

(** X2: the overlay folds the case of keys.  For a received dictionary
    with ASCII keys, a key, in whatever casing, writes the entry of its
    lower-cased name (when it is the only key with that lower-cased name);
    unless the key is exactly [consistent_lun], what it writes is a
    port-flag state, also when the lower-cased name is [consistent_lun]. *)
Theorem overlay_folds_key_case
    (rf : pydict) (B : gmap string flag_value) (k : string) (v : pyval) :
  Forall ascii_only (py_keys rf) →
  py_get k rf = Some v →
  (∀ k', k' ∈ py_keys rf → lower k' = lower k → k' = k) →
  overlay rf B !! lower k = Some (overlay_rule k v)
  ∧ (k ≠ "consistent_lun" → tri_state (overlay_rule k v))
  ∧ (k = "consistent_lun" → ∃ b, overlay_rule k v = LunFlag b).
Proof.
  intros _ Hv Huniq. split; [| split].
  - by apply overlay_lookup_folded.
  - apply overlay_rule_tri_state.
  - intros ->. unfold overlay_rule. simpl. by eexists.
Qed.

Lemma overlay_folds_key_case_witness :
  let B := _recreate_host_flag_dict host_H1 ∅ in
  overlay [("SCSI_3", PyBool true)] B !! "scsi_3" = Some Enabled
  ∧ overlay [("Consistent_LUN", PyBool true)] B !! "consistent_lun"
    = Some Enabled.
Proof.
  intros B. split.
  - refine (proj1 (overlay_folds_key_case [("SCSI_3", PyBool true)] B
                     "SCSI_3" (PyBool true) _ _ _));
      [compute_done | reflexivity |].
    intros k' Hk' _. apply elem_of_cons in Hk' as [-> | Hk']; [done |].
    by apply elem_of_nil in Hk'.
  - refine (proj1 (overlay_folds_key_case [("Consistent_LUN", PyBool true)] B
                     "Consistent_LUN" (PyBool true) _ _ _));
      [compute_done | reflexivity |].
    intros k' Hk' _. apply elem_of_cons in Hk' as [-> | Hk']; [done |].
    by apply elem_of_nil in Hk'.
Defined.

Lemma lower_ascii_idemp c : lower_ascii (lower_ascii c) = lower_ascii c.
Proof. destruct c as [[] [] [] [] [] [] [] []]; reflexivity. Qed.

Lemma lower_idemp s : lower (lower s) = lower s.
Proof.
  induction s as [|c s IH]; [done |]. simpl. by rewrite lower_ascii_idemp, IH.
Qed.

Lemma ascii_only_cons c s :
  ascii_only (String c s) ↔ (nat_of_ascii c < 128)%nat ∧ ascii_only s.
Proof.
  unfold ascii_only. simpl.
  apply (Forall_cons (λ c, (nat_of_ascii c < 128)%nat)).
Qed.

Lemma lower_ascii_below c :
  (nat_of_ascii c < 128)%nat → (nat_of_ascii (lower_ascii c) < 128)%nat.
Proof.
  intros Hc. unfold lower_ascii.
  destruct ((65 <=? nat_of_ascii c)%nat && (nat_of_ascii c <=? 90)%nat)
    eqn:Hup; [| done].
  apply andb_true_iff in Hup as [_ Hle%Nat.leb_le].
  rewrite nat_ascii_embedding; lia.
Qed.

Lemma ascii_only_lower s : ascii_only s → ascii_only (lower s).
Proof.
  induction s as [|c s IH]; [done |]. simpl.
  rewrite !ascii_only_cons. intros [Hc Hs].
  split; [by apply lower_ascii_below | by apply IH].
Qed.

Lemma ascii_only_re_sub s inside :
  ascii_only s → ascii_only (re_sub_from inside s).
Proof.
  revert inside. induction s as [|c s IH]; intros inside; [by destruct inside |].
  rewrite ascii_only_cons. intros [Hc Hs]. destruct inside; simpl.
  - destruct (Ascii.eqb c ")"); by apply IH.
  - destruct (Ascii.eqb c "(" && has_close s); [by apply IH |].
    apply ascii_only_cons. split; [done | by apply IH].
Qed.

Lemma ascii_only_split sep s w :
  ascii_only s → w ∈ split_on sep s → ascii_only w.
Proof.
  revert w. induction s as [|c s IH]; intros w Hs Hw; simpl in Hw.
  - apply elem_of_cons in Hw as [-> | Hw]; [done | by apply elem_of_nil in Hw].
  - apply ascii_only_cons in Hs as [Hc Hs].
    destruct (Ascii.eqb c sep).
    + apply elem_of_cons in Hw as [-> | Hw]; [constructor | by apply IH].
    + destruct (split_on sep s) as [|w0 ws] eqn:Hsplit.
      * apply elem_of_cons in Hw as [-> | Hw];
          [| by apply elem_of_nil in Hw].
        apply ascii_only_cons. split; [done | constructor].
      * apply elem_of_cons in Hw as [-> | Hw].
        -- apply ascii_only_cons. split; [done |]. apply IH; [done | by left].
        -- apply IH; [done | by right].
Qed.

Lemma ascii_only_reported report n :
  ascii_only report → n ∈ reported report → ascii_only n.
Proof.
  intros Hrep Hn. unfold reported in Hn.
  apply list_elem_of_fmap in Hn as (flag & -> & Hflag).
  apply list_elem_of_filter in Hflag as [_ Hflag].
  apply ascii_only_lower, ascii_only_re_sub.
  by apply (ascii_only_split "," report).
Qed.

(** X3: every key of a flag set that the module builds is in lower case.
    When the keys of the received dictionary and the reports of the array
    are ASCII, every key of the flag set of the create path and of the
    overlay on the rebuilt baseline is ASCII and is its own lower-casing,
    whatever the casing in the dictionary or in the reports. *)
Theorem payload_keys_are_lower_case
    (rf : pydict) (h : host) (k : string) :
  Forall ascii_only (py_keys rf) →
  ascii_only (enabled_flags h) →
  ascii_only (disabled_flags h) →
  k ∈ dom (_create_host_flags_dict rf ∅)
  ∨ k ∈ dom (overlay rf (_recreate_host_flag_dict h ∅)) →
  ascii_only k ∧ lower k = k.
Proof.
  intros Hkeys Hen Hdis.
  assert (∀ n, n ∈ payload_keys → ascii_only n ∧ lower n = n) as Hnine.
  { intros n Hn. unfold payload_keys in Hn.
    apply elem_of_list_to_set, elem_of_app in Hn as [Hn | Hn].
    - split; [| by apply lower_canonical].
      unfold host_flags_list in Hn.
      repeat (apply elem_of_cons in Hn as [-> | Hn]; [compute_done |]).
      by apply elem_of_nil in Hn.
    - apply elem_of_cons in Hn as [-> | Hn]; [| by apply elem_of_nil in Hn].
      split; [compute_done | done]. }
  assert (∀ report n, ascii_only report → n ∈ reported report →
                      ascii_only n ∧ lower n = n) as Hrep.
  { intros report n Hascii Hn. split; [by apply (ascii_only_reported report) |].
    unfold reported in Hn.
    apply list_elem_of_fmap in Hn as (flag & -> & _). apply lower_idemp. }
  intros [Hk | Hk].
  - rewrite create_dict_dom in Hk. by apply Hnine.
  - rewrite overlay_dom, recreate_dom in Hk.
    rewrite !elem_of_union, !elem_of_list_to_set in Hk.
    destruct Hk as [[[Hk | Hk] | Hk] | Hk]; eauto.
    apply list_elem_of_fmap in Hk as (k' & -> & Hk').
    split; [| apply lower_idemp].
    apply ascii_only_lower. rewrite Forall_forall in Hkeys. by apply Hkeys.
Qed.

Lemma payload_keys_are_lower_case_witness :
  ascii_only "scsi_3" ∧ lower "scsi_3" = "scsi_3".
Proof.
  apply (payload_keys_are_lower_case [("SCSI_3", PyBool true)]
           (Host "H1" None "OpenVMS(Ovrd)" "" false)).
  - compute_done.
  - compute_done.
  - compute_done.
  - right. compute_done.
Defined.

(** ** The overlay applied again *)

Lemma foldl_insert_indep {A} (key : A → string) (val : A → flag_value)
    ks (d d' : gmap string flag_value) n :
  n ∈ key <$> ks →
  foldl (λ d k, <[key k := val k]> d) d ks !! n
  = foldl (λ d k, <[key k := val k]> d) d' ks !! n.
Proof.
  revert d d'. induction ks as [|k ks IH]; intros d d' Hn.
  - by apply elem_of_nil in Hn.
  - cbn [foldl]. destruct (decide (n ∈ key <$> ks)) as [Hin | Hout].
    + by apply IH.
    + rewrite !(foldl_insert_frame key val) by done.
      rewrite fmap_cons in Hn. apply elem_of_cons in Hn as [-> | Hn]; [| done].
      by rewrite !lookup_insert_eq.
Qed.

(** X4: the overlay is idempotent: overlaying the received flags on a flag
    set that already is their overlay changes nothing, for every received
    dictionary and every baseline. *)
Theorem overlay_idempotent (rf : pydict) (B : gmap string flag_value) :
  overlay rf (overlay rf B) = overlay rf B.
Proof.
  apply map_eq. intros n.
  destruct (decide (n ∈ lower <$> py_keys rf)) as [Hin | Hout].
  - rewrite !overlay_fold. by apply foldl_insert_indep.
  - by rewrite overlay_lookup_frame.
Qed.


(** ** Annotations *)

Lemma has_close_re_sub s :
  has_close s = false → has_close (re_sub_from false s) = false.
Proof.
  induction s as [|c s IH]; [done |]. simpl.
  destruct (Ascii.eqb c ")") eqn:Hc; [done |].
  destruct (Ascii.eqb c newline) eqn:Hn.
  - intros _. apply Ascii.eqb_eq in Hn as ->. reflexivity.
  - intros Hs. rewrite Hs, andb_false_r. simpl. rewrite Hc, Hn. by apply IH.
Qed.

Lemma re_sub_from_clean s inside :
  re_sub_from false (re_sub_from inside s) = re_sub_from inside s.
Proof.
  revert inside. induction s as [|c s IH]; intros inside; [by destruct inside |].
  destruct inside; simpl.
  - destruct (Ascii.eqb c ")"); apply IH.
  - destruct (Ascii.eqb c "(" && has_close s) eqn:Hmatch; [apply IH |].
    simpl. rewrite IH.
    destruct (Ascii.eqb c "(") eqn:Hc; [| done]. simpl in Hmatch.
    by rewrite has_close_re_sub.
Qed.

(** X5: nothing is left to remove after the annotations of a reported
    flag were removed: applying the substitution to its own result changes
    nothing, for every string. *)
Theorem re_sub_annotation_idempotent (s : string) :
  re_sub_annotation (re_sub_annotation s) = re_sub_annotation s.
Proof. apply re_sub_from_clean. Qed.

(** ** Outcomes and logs of sequenced code *)

Lemma ensures_ret {remote A} (a : A) (Q : outcome A → list event → Prop) :
  Q (Value a) [] → ensures (mret a : M remote A) Q.
Proof. by intros HQ r. Qed.

Lemma ensures_stop {remote A} (o : outcome A) Q :
  Q o [] → ensures (stop o : M remote A) Q.
Proof. by intros HQ r. Qed.

Lemma ensures_weaken {remote A} (m : M remote A) (Q Q' : outcome A → list event → Prop) :
  ensures m Q → (∀ o t, Q o t → Q' o t) → ensures m Q'.
Proof. intros Hm HQ r. apply HQ, Hm. Qed.

Lemma ensures_bind {remote A B} (m : M remote A) (k : A → M remote B)
    (R : outcome A → list event → Prop) (Q : outcome B → list event → Prop) :
  ensures m R →
  (∀ a t1, R (Value a) t1 → ensures (k a) (λ o t2, Q o (t1 ++ t2)%list)) →
  (∀ msg t, R (fail_json msg) t → Q (fail_json msg) t) →
  (∀ c d t, R (exit_json c d) t → Q (exit_json c d) t) →
  (∀ t, R Uncaught t → Q Uncaught t) →
  ensures (m ≫= k) Q.
Proof.
  intros Hm Hk Hf He Hu r. rewrite bind_unfold. specialize (Hm r).
  destruct (m r) as [[o r1] t1]. simpl in Hm.
  destruct o as [a | msg | c d |]; simpl; auto.
  specialize (Hk a t1 Hm r1). by destruct (k a r1) as [[o2 r2] t2].
Qed.

Lemma mutated_app t1 t2 : mutated (t1 ++ t2)%list = mutated t1 || mutated t2.
Proof. unfold mutated. apply existsb_app. Qed.

Lemma no_close_app t1 t2 : no_close t1 → no_close t2 → no_close (t1 ++ t2)%list.
Proof. unfold no_close. intros. by apply Forall_app. Qed.

Lemma closed_once_app t1 t2 :
  no_close t1 → closed_once t2 → closed_once (t1 ++ t2)%list.
Proof.
  intros H1 (pre & a & -> & Hpre). exists (t1 ++ pre)%list, a.
  split; [by rewrite (assoc_L (++)%list) | by apply no_close_app].
Qed.

Lemma vanished_app t1 t2 : no_close t1 → vanished t2 → vanished (t1 ++ t2)%list.
Proof.
  intros H1 (pre & n & a & -> & Ha & Hpre). exists (t1 ++ pre)%list, n, a.
  split; [by rewrite (assoc_L (++)%list) |]. split; [done | by apply no_close_app].
Qed.

Lemma close_failed_app t1 t2 :
  no_close t1 → close_failed t2 → close_failed (t1 ++ t2)%list.
Proof.
  intros H1 (pre & e & -> & Hpre). exists (t1 ++ pre)%list, e.
  split; [by rewrite (assoc_L (++)%list) | by apply no_close_app].
Qed.

Lemma step_summary_shift c o t1 t2 :
  no_close t1 → step_summary (c || mutated t1) o t2 →
  step_summary c o (t1 ++ t2)%list.
Proof.
  intros H1. destruct o as [b | msg | ch d |]; simpl; [| | done |].
  - intros [-> H2]. rewrite mutated_app, orb_assoc.
    split; [done | by apply no_close_app].
  - by apply closed_once_app.
  - by apply vanished_app.
Qed.

Lemma details_of_app p d t1 t2 :
  details_of p d t2 → details_of p d (t1 ++ t2)%list.
Proof.
  intros [Habs | (Hpres & pre & a & c & -> & Hd)]; [by left | right].
  split; [done |]. exists (t1 ++ pre)%list, a, c.
  by rewrite (assoc_L (++)%list).
Qed.

Lemma details_of_empty p d t :
  details_of p d t → d = EmptyDict ↔ state p = absent.
Proof.
  intros [[Habs ->] | (Hpres & pre & a & c & _ & ->)]; [done |].
  split; [done | congruence].
Qed.

Lemma run_summary_shift p c o t1 t2 :
  no_close t1 → run_summary p (c || mutated t1) o t2 →
  run_summary p c o (t1 ++ t2)%list.
Proof.
  intros H1. destruct o as [b | msg | ch d |]; simpl; [done | | |].
  - by apply closed_once_app.
  - intros (-> & H2 & Hd). rewrite mutated_app, orb_assoc.
    split; [done |].
    split; [by apply closed_once_app | by apply details_of_app].
  - intros [H2 | H2]; [left; by apply vanished_app
                      | right; by apply close_failed_app].
Qed.

Section Summaries.
Context {remote : Type}.
Variable serve : remote → request → remote * reply.

Lemma ensures_after_get_host {B} n (k : option host → M remote B) Q :
  (∀ a, ensures (k (fetched a)) (λ o t, Q o ((get_host_call n, a) :: t))) →
  ensures (get_host serve n ≫= k) Q.
Proof.
  intros Hk r. rewrite bind_unfold, get_host_unfold.
  specialize (Hk (serve r (get_host_call n)).2 (serve r (get_host_call n)).1).
  unfold fetched in Hk.
  by destruct (k _ _) as [[o2 r2] t2].
Qed.

(** A call that changes the array, with [show_error_exit] as its
    exception handler. *)
Lemma mutation_summary c (msg : string → message) changed :
  mutation c = true →
  ensures
    (a ← call serve c;
     match a with
     | Returned _ => mret true
     | Raised e => show_error_exit serve (msg e)
     end)
    (step_summary changed).
Proof.
  intros Hc r. rewrite bind_unfold, call_unfold.
  assert (c ≠ close_connection) as Hne by (intros ->; done).
  destruct (serve r c) as [r1 [h | e]]; simpl.
  - unfold mutated. simpl. rewrite Hc. simpl. rewrite orb_true_r.
    split; [done |]. by repeat constructor.
  - unfold show_error_exit. rewrite bind_unfold, call_unfold. simpl.
    exists [(c, Raised e)], (serve r1 close_connection).2.
    split; [done |]. by repeat constructor.
Qed.

Lemma accumulate_summary (m : M remote bool) changed :
  ensures m (step_summary false) →
  ensures (c ← m; mret (c || changed)) (step_summary changed).
Proof.
  intros Hm. eapply ensures_bind; [exact Hm | | done | done | ].
  - intros b t1 [-> H1]. apply ensures_ret. simpl.
    rewrite app_nil_r. split; [apply orb_comm | done].
  - intros t Ht. exact Ht.
Qed.

Lemma step_after_fetch n a changed (m : M remote bool) :
  ensures m (step_summary changed) →
  ensures m (λ o t, step_summary changed o ((get_host_call n, a) :: t)).
Proof.
  intros Hm. eapply ensures_weaken; [exact Hm |]. intros o t Ht.
  apply (step_summary_shift changed o [(get_host_call n, a)] t).
  - by repeat constructor.
  - unfold mutated. simpl. by rewrite orb_false_r.
Qed.

Lemma add_host_initiators_summary name inits :
  ensures (add_host_initiators serve name inits) (step_summary false).
Proof.
  unfold add_host_initiators. apply ensures_after_get_host. intros a.
  destruct (_ && _); [| destruct (_ <? _)%nat].
  - apply step_after_fetch, ensures_ret. by split; [| constructor].
  - by apply step_after_fetch, mutation_summary.
  - apply step_after_fetch, ensures_ret. by split; [| constructor].
Qed.

Lemma remove_host_initiators_summary name inits :
  ensures (remove_host_initiators serve name inits) (step_summary false).
Proof.
  unfold remove_host_initiators. apply ensures_after_get_host. intros a.
  case_bool_decide; [| destruct (_ <? _)%nat].
  - apply step_after_fetch, ensures_ret. by split; [| constructor].
  - by apply step_after_fetch, mutation_summary.
  - apply step_after_fetch, ensures_ret. by split; [| constructor].
Qed.

Lemma modify_host_flags_summary name rf :
  ensures (modify_host_flags serve name rf) (step_summary false).
Proof.
  unfold modify_host_flags. apply ensures_after_get_host. intros a.
  destruct (fetched a) as [h |] eqn:Ha.
  - case_bool_decide.
    + apply step_after_fetch, ensures_ret. by split; [| constructor].
    + by apply step_after_fetch, mutation_summary.
  - apply ensures_stop. simpl. exists [], name, a.
    split; [done |]. split; [done | constructor].
Qed.

Lemma _create_result_dict_summary p changed :
  ensures (_create_result_dict serve p changed)
    (λ o t, ∃ d, o = Value (changed, d) ∧ mutated t = false ∧ no_close t
                 ∧ ((state p = absent ∧ d = EmptyDict)
                    ∨ (state p = present
                       ∧ ∃ a, t = [(get_host_call (snapshot_name p), a)]
                              ∧ d = Fetched (fetched a)))).
Proof.
  unfold _create_result_dict, snapshot_name. case_bool_decide as Hstate.
  - apply ensures_ret. exists EmptyDict.
    split; [done |]. split; [done |]. split; [constructor | by left].
  - assert (state p = present) as Hpres by (by destruct (state p)).
    destruct (truthy_str _); apply ensures_after_get_host; intros a;
      apply ensures_ret; eexists; (split; [done |]);
      (split; [done |]); (split; [by repeat constructor |]);
      right; (split; [done |]); by exists a.
Qed.

Lemma step_rule p changed (step : M remote bool) (rest : bool → M remote unit) :
  ensures step (step_summary changed) →
  (∀ b, ensures (rest b) (run_summary p b)) →
  ensures (step ≫= rest) (run_summary p changed).
Proof.
  intros Hstep Hrest. eapply ensures_bind; [exact Hstep | | done | done |].
  - intros b t1 [-> H1]. eapply ensures_weaken; [apply Hrest |].
    intros o t2. by apply run_summary_shift.
  - intros t Ht. by left.
Qed.

Lemma perform_module_operation_summary p :
  ensures (perform_module_operation serve p) (run_summary p false).
Proof.
  unfold perform_module_operation. apply ensures_after_get_host. intros a.
  eapply ensures_weaken;
    [| intros o t Ht;
       apply (run_summary_shift p false o [(get_host_call (host_name p), a)] t);
       [by repeat constructor | exact Ht]].
  cbn [orb mutated existsb mutation fst].
  apply step_rule.
  { destruct (_ && _); [| by apply ensures_ret; split; [| constructor]].
    unfold create_host. by apply mutation_summary. }
  intros c1. apply step_rule.
  { destruct (_ && _).
    - apply accumulate_summary, add_host_initiators_summary.
    - apply ensures_ret. split; [by rewrite orb_false_r | constructor]. }
  intros c2. apply step_rule.
  { destruct (_ && _).
    - apply accumulate_summary, remove_host_initiators_summary.
    - apply ensures_ret. split; [by rewrite orb_false_r | constructor]. }
  intros c3. apply step_rule.
  { destruct (_ && _).
    - apply accumulate_summary, modify_host_flags_summary.
    - apply ensures_ret. split; [by rewrite orb_false_r | constructor]. }
  intros c4. apply step_rule.
  { assert (ensures (mret c4 : M remote bool) (step_summary c4)) as Hret
      by (apply ensures_ret; split; [by rewrite orb_false_r | constructor]).
    destruct (fetched a) as [h |]; [| exact Hret].
    destruct (new_name p) as [new |]; [| exact Hret].
    destruct (_ && _); [| exact Hret].
    unfold rename_host. by apply mutation_summary. }
  intros c5. apply step_rule.
  { destruct (_ && _).
    - unfold delete_host. apply accumulate_summary. by apply mutation_summary.
    - apply ensures_ret. split; [by rewrite orb_false_r | constructor]. }
  intros c6.
  eapply ensures_bind;
    [ apply _create_result_dict_summary
    |
    | intros ? ? (? & ? & _); done
    | intros ? ? ? (? & ? & _); done
    | intros ? (? & ? & _); done ].
  intros res t1 (d & [= ->] & Hmut & Hnc & Hd). simpl.
  intros r. rewrite bind_unfold, call_unfold.
  destruct (serve r close_connection) as [r1 [h | e]]; simpl.
  - rewrite mutated_app, Hmut. unfold mutated. simpl. rewrite orb_false_r.
    split; [done |]. split; [by exists t1, (Returned h) |].
    destruct Hd as [Habs | (Hpres & a' & -> & ->)]; [by left | right].
    split; [done |]. by exists [], a', (Returned h).
  - right. by exists t1, e.
Qed.

End Summaries.

(** ** What a run reports *)

Section Reports.
Context {remote : Type}.
Variable serve : remote → request → remote * reply.

(** X6: [changed] is accurate.  When a run ends through [exit_json], the
    reported [changed] is true exactly when the run made a create, modify
    or delete call. *)
Theorem changed_reports_mutation
    (p : params) (r : remote) (ch : bool) (d : details) :
  (perform_module_operation serve p r).1.1 = exit_json ch d →
  ch = true
  ↔ ∃ ev, ev ∈ (perform_module_operation serve p r).2 ∧ mutation ev.1 = true.
Proof.
  intros Hexit. pose proof (perform_module_operation_summary serve p r) as H.
  rewrite Hexit in H. simpl in H. destruct H as (-> & _ & _).
  unfold mutated. rewrite existsb_exists.
  split; intros (ev & Hin & Hev); exists ev; (split; [| done]);
    by apply list_elem_of_In.
Qed.

(** X7: the connection is closed exactly once.  When a run ends through
    [exit_json] or [fail_json], closing the connection is the last call of
    the run and the only closing call. *)
Theorem connection_closed_once (p : params) (r : remote) :
  (∃ ch d, (perform_module_operation serve p r).1.1 = exit_json ch d)
  ∨ (∃ msg, (perform_module_operation serve p r).1.1 = fail_json msg) →
  closed_once (perform_module_operation serve p r).2.
Proof.
  pose proof (perform_module_operation_summary serve p r) as H.
  intros [(ch & d & Ho) | (msg & Ho)]; rewrite Ho in H; simpl in H.
  - by destruct H as (_ & H & _).
  - done.
Qed.

(** X8: the two ways a run dies of an uncaught exception.  Either the
    fetch of the flag step found no host, and then the connection is left
    open; or closing the connection at the normal exit raised.  A run never
    ends by merely returning. *)
Theorem uncaught_causes (p : params) (r : remote) :
  (perform_module_operation serve p r).1.1 = Uncaught →
  (vanished (perform_module_operation serve p r).2
   ∧ no_close (perform_module_operation serve p r).2)
  ∨ close_failed (perform_module_operation serve p r).2.
Proof.
  intros Ho. pose proof (perform_module_operation_summary serve p r) as H.
  rewrite Ho in H. simpl in H. destruct H as [H | H]; [left | by right].
  split; [done |]. destruct H as (pre & n & a & -> & _ & Hpre).
  apply no_close_app; [done |]. by repeat constructor.
Qed.

(** X9: [host_details] of a run that ends through [exit_json].  It is the
    empty dictionary exactly when the desired state is absent; with state
    present it is what [get_host] made of the answer to the last fetch of
    the run, the call just before the closing of the connection, made
    under [new_name] when one is given and under [host_name] otherwise. *)
Theorem details_empty_iff_absent
    (p : params) (r : remote) (ch : bool) (d : details) :
  (perform_module_operation serve p r).1.1 = exit_json ch d →
  (d = EmptyDict ↔ state p = absent)
  ∧ (state p = present →
     ∃ pre a c,
       (perform_module_operation serve p r).2
       = (pre ++ [(get_host_call
                     (if truthy_str (new_name p) then default "" (new_name p)
                      else host_name p), a);
                  (close_connection, c)])%list
       ∧ d = Fetched (fetched a)).
Proof.
  intros Hexit. pose proof (perform_module_operation_summary serve p r) as H.
  rewrite Hexit in H. simpl in H. destruct H as (_ & _ & H).
  split; [by apply (details_of_empty p d _ H) |].
  intros Hpres. destruct H as [[Habs _] | (_ & H)]; [congruence | exact H].
Qed.

End Reports.

Lemma changed_reports_mutation_witness :
  true = true
  ↔ ∃ ev,
      ev ∈ (run_on_array
              (Params "H1" (Some ["iqn.a"]) present (Some present_in_host)
                      None None) empty_array).2
      ∧ mutation ev.1 = true.
Proof.
  apply (changed_reports_mutation array_serve
           (Params "H1" (Some ["iqn.a"]) present (Some present_in_host)
                   None None) empty_array true
           (Fetched (Some (Host "H1" (Some ["iqn.a"]) "" "" false)))).
  vm_compute. reflexivity.
Defined.

Lemma connection_closed_once_witness :
  closed_once
    (run_on_array (Params "H1" None absent None None None) masked_array).2.
Proof.
  apply (connection_closed_once array_serve).
  right. eexists. vm_compute. reflexivity.
Defined.

Lemma uncaught_causes_witness :
  let log := (perform_module_operation flaky_serve
                (Params "H1" None present None
                        (Some [("scsi_3", PyBool true)]) None) 0%nat).2 in
  (vanished log ∧ no_close log) ∨ close_failed log.
Proof.
  apply (uncaught_causes flaky_serve). vm_compute. reflexivity.
Defined.

Lemma details_empty_iff_absent_witness :
  (Fetched (Some host_H1) = EmptyDict ↔ present = absent)
  ∧ (present = present →
     ∃ pre a c,
       (run_on_array (Params "H1" None present None None None)
          masked_array).2
       = (pre ++ [(get_host_call "H1", a); (close_connection, c)])%list
       ∧ Fetched (Some host_H1) = Fetched (fetched a)).
Proof.
  apply (details_empty_iff_absent array_serve
           (Params "H1" None present None None None) masked_array false).
  vm_compute. reflexivity.
Defined.

(** ** Which calls a run makes *)

Lemma add_list_requested ex inits x :
  x ∈ _get_add_initiators ex inits → x ∈ inits ∧ x ∉ ex.
Proof.
  unfold _get_add_initiators. rewrite elem_of_elements, elem_of_difference.
  rewrite !elem_of_list_to_set, elem_of_app. tauto.
Qed.

Lemma remove_list_requested ex inits x :
  x ∈ _get_remove_initiators ex inits → x ∈ ex ∧ x ∈ inits.
Proof.
  unfold _get_remove_initiators.
  rewrite elem_of_elements, elem_of_intersection.
  by rewrite !elem_of_list_to_set.
Qed.

Lemma length_pos_nonempty {A} (l : list A) :
  (0 <? List.length l)%nat = true → l ≠ [].
Proof. by destruct l. Qed.

Lemma truthy_list_Some {A} (o : option (list A)) :
  truthy_list o = true → ∃ l, o = Some l ∧ l ≠ [].
Proof. destruct o as [[|x l]|]; try done. intros _. by eexists. Qed.

Lemma truthy_str_Some (o : option string) :
  truthy_str o = true → ∃ s, o = Some s ∧ s ≠ "".
Proof.
  destruct o as [s|]; [| done]. unfold truthy_str, nonempty_str.
  intros Hs%negb_true_iff%bool_decide_eq_false. by exists s.
Qed.

Lemma nonempty_str_true s : nonempty_str s = true → s ≠ "".
Proof. by intros H%negb_true_iff%bool_decide_eq_false. Qed.

Ltac conds H :=
  repeat (apply andb_true_iff in H as [H ?]);
  repeat match goal with
         | H' : bool_decide _ = true |- _ => apply bool_decide_eq_true in H'
         | H' : bool_decide _ = false |- _ => apply bool_decide_eq_false in H'
         | H' : nonempty_str _ = true |- _ => apply nonempty_str_true in H'
         | H' : negb _ = true |- _ => apply negb_true_iff in H'
         end.

Section Licence.
Context {remote : Type}.
Variable serve : remote → request → remote * reply.
Variable P : event → Prop.
Hypothesis P_close : ∀ a, P (close_connection, a).

Lemma emits_get_host_if n : (∀ a, P (get_host_call n, a)) → emits P (get_host serve n).
Proof.
  intros Hn. unfold get_host. apply emits_bind; [by apply emits_call |].
  intros [h | e]; apply emits_ret.
Qed.

Lemma emits_mutation_if c (msg : string → message) :
  (∀ a, P (c, a)) →
  emits P
    (a ← call serve c;
     match a with
     | Returned _ => mret true
     | Raised e => show_error_exit serve (msg e)
     end).
Proof.
  intros Hc. apply emits_bind; [by apply emits_call |].
  intros [h | e]; [apply emits_ret |].
  unfold show_error_exit. apply emits_bind; [by apply emits_call |].
  intros. apply emits_stop.
Qed.

Lemma log_after_get_host {B} n (k : option host → M remote B) r :
  P (get_host_call n, (serve r (get_host_call n)).2) →
  emits P (k (fetched (serve r (get_host_call n)).2)) →
  Forall P ((get_host serve n ≫= k) r).2.
Proof.
  intros Hn Hk. rewrite bind_unfold, get_host_unfold.
  specialize (Hk (serve r (get_host_call n)).1). unfold fetched in Hk.
  destruct (k _ _) as [[o2 r2] t2]. simpl in *. by constructor.
Qed.

End Licence.

Section Licensed.
Context {remote : Type}.
Variable serve : remote → request → remote * reply.

Lemma licensed_calls_of_run (p : params) (r : remote) :
  Forall
    (licensed p (fetched (serve r (get_host_call (host_name p))).2))
    (perform_module_operation serve p r).2.
Proof.
  unfold perform_module_operation.
  set (found := fetched (serve r (get_host_call (host_name p))).2).
  assert (∀ a, licensed p found (close_connection, a)) as Hclose by done.
  assert (∀ a, licensed p found (get_host_call (host_name p), a)) as Hget
    by (intros; by left).
  apply log_after_get_host; [by left |]. fold found.
  apply emits_bind.
  { destruct (_ && _) eqn:Hc; [| apply emits_ret]. conds Hc.
    unfold create_host. apply emits_mutation_if; [done |].
    intros a. unfold licensed, create_initiators, create_flags. simpl.
    repeat split; try done. by apply eq_None_not_Some. }
  intros c1. apply emits_bind.
  { destruct (_ && _) eqn:Hc; [| apply emits_ret]. conds Hc.
    apply emits_bind; [| intros; apply emits_ret].
    unfold add_host_initiators.
    apply emits_bind; [by apply emits_get_host_if |]. intros h'.
    destruct (_ && _); [apply emits_ret |].
    destruct (_ <? _)%nat eqn:Hlen; [| apply emits_ret].
    apply emits_mutation_if; [done |]. intros a. unfold licensed. simpl.
    repeat split; try done.
    - by apply length_pos_nonempty.
    - intros x Hx. by apply add_list_requested in Hx as [? _]. }
  intros c2. apply emits_bind.
  { destruct (_ && _) eqn:Hc; [| apply emits_ret]. conds Hc.
    apply emits_bind; [| intros; apply emits_ret].
    unfold remove_host_initiators.
    apply emits_bind; [by apply emits_get_host_if |]. intros h'.
    case_bool_decide; [apply emits_ret |].
    destruct (_ <? _)%nat eqn:Hlen; [| apply emits_ret].
    apply emits_mutation_if; [done |]. intros a. unfold licensed. simpl.
    repeat split; try done.
    - by apply length_pos_nonempty.
    - intros x Hx. by apply remove_list_requested in Hx as [_ ?]. }
  intros c3. apply emits_bind.
  { destruct (_ && _) eqn:Hc; [| apply emits_ret]. conds Hc.
    apply emits_bind; [| intros; apply emits_ret].
    unfold modify_host_flags.
    apply emits_bind; [by apply emits_get_host_if |]. intros [h' |].
    - case_bool_decide; [apply emits_ret |].
      apply emits_mutation_if; [done |]. intros a. unfold licensed. simpl.
      repeat split; try done.
      match goal with H : truthy_list _ = true |- _ =>
        apply truthy_list_Some in H as (rf & ? & ?) end.
      by exists rf.
    - apply emits_stop. }
  intros c4. apply emits_bind.
  { destruct found as [h |] eqn:Hfound; [| apply emits_ret].
    destruct (new_name p) as [new |] eqn:Hnew; [| apply emits_ret].
    destruct (_ && _) eqn:Hc; [| apply emits_ret]. conds Hc.
    unfold rename_host. apply emits_mutation_if; [done |].
    intros a. unfold licensed. simpl. rewrite Hnew.
    repeat split; try done. intros h0 [= <-]. done. }
  intros c5. apply emits_bind.
  { destruct (_ && _) eqn:Hc; [| apply emits_ret]. conds Hc.
    apply emits_bind; [| intros; apply emits_ret].
    unfold delete_host. by apply emits_mutation_if. }
  intros c6. apply emits_bind.
  { unfold _create_result_dict.
    case_bool_decide as Hstate; [apply emits_ret |].
    destruct (truthy_str _) eqn:Hnew.
    - apply emits_bind; [| intros; apply emits_ret].
      apply emits_get_host_if. intros a. right.
      apply truthy_str_Some in Hnew as (s & -> & Hs). simpl.
      by destruct (state p).
    - apply emits_bind; [| intros; apply emits_ret].
      by apply emits_get_host_if. }
  intros res. apply emits_bind; [by apply emits_call |].
  intros [h' | e]; apply emits_stop.
Qed.

(** X10: every call of a run is licensed by the parameters and by what
    the first fetch found.  Create needs state present, no host found and a
    name; every modify needs state present and a host found, adding needs
    present-in-host and removing absent-in-host, each with a non-empty list
    of requested initiators, setting flags needs received flags, renaming a
    new name other than the fetched [hostId]; delete needs state absent
    and a host found.  All of them are about [host_name]; only the final
    fetch may be about [new_name]. *)
Theorem calls_are_licensed (p : params) (r : remote) (ev : event) :
  ev ∈ (perform_module_operation serve p r).2 →
  licensed p (fetched (serve r (get_host_call (host_name p))).2) ev.
Proof.
  intros Hev. pose proof (licensed_calls_of_run p r) as H.
  rewrite Forall_forall in H. by apply H.
Qed.

End Licensed.

Section Exclusive.
Context {remote : Type}.
Variable serve : remote → request → remote * reply.

Lemma licensed_in_log p r ev :
  ev ∈ (perform_module_operation serve p r).2 →
  licensed p (fetched (serve r (get_host_call (host_name p))).2) ev.
Proof.
  intros Hev. pose proof (licensed_calls_of_run serve p r) as H.
  rewrite Forall_forall in H. by apply H.
Qed.

(** X11: with the desired state absent a run only fetches the host under
    [host_name], may delete it, and closes the connection: it never
    creates, modifies or renames, whatever initiators, flags or new name
    are given. *)
Theorem absent_run_only_deletes (p : params) (r : remote) (ev : event) :
  state p = absent →
  ev ∈ (perform_module_operation serve p r).2 →
  ev.1 = get_host_call (host_name p)
  ∨ ev.1 = delete_host_call (host_name p)
  ∨ ev.1 = close_connection.
Proof.
  intros Hstate Hev. apply licensed_in_log in Hev. unfold licensed in Hev.
  destruct ev.1 as [n | n i f | n ch | n |].
  - left. destruct Hev as [-> | (? & _)]; [done | congruence].
  - destruct Hev as (_ & _ & ? & _). congruence.
  - destruct Hev as (_ & ? & _). congruence.
  - right. left. by destruct Hev as (-> & _).
  - by right; right.
Qed.

(** X12: the steps exclude one another as their gates say.  Within one
    run, a create call excludes every modify call, an add-initiators call
    excludes a remove-initiators call, and a delete call excludes every
    create and every modify call. *)
Theorem steps_are_exclusive (p : params) (r : remote) (ev1 ev2 : event) :
  ev1 ∈ (perform_module_operation serve p r).2 →
  ev2 ∈ (perform_module_operation serve p r).2 →
  (∀ n i f n' ch, ev1.1 = create_host_call n i f →
                  ev2.1 ≠ modify_host_call n' ch)
  ∧ (∀ n l n' l', ev1.1 = modify_host_call n (add_init_list l) →
                  ev2.1 ≠ modify_host_call n' (remove_init_list l'))
  ∧ (∀ n, ev1.1 = delete_host_call n →
          mutation ev2.1 = true → ev2.1 = delete_host_call (host_name p)).
Proof.
  intros H1%licensed_in_log H2%licensed_in_log. unfold licensed in *.
  split; [| split].
  - intros n i f n' ch E1 E2. rewrite E1 in H1. rewrite E2 in H2.
    destruct H1 as (_ & _ & _ & Hnone & _). destruct H2 as (_ & _ & Hsome & _).
    rewrite Hnone in Hsome. by destruct Hsome.
  - intros n l n' l' E1 E2. rewrite E1 in H1. rewrite E2 in H2.
    destruct H1 as (_ & _ & _ & Hp & _). destruct H2 as (_ & _ & _ & Ha & _).
    congruence.
  - intros n E1 Hmut. rewrite E1 in H1. destruct H1 as (_ & Habs & _).
    destruct ev2.1 as [n2 | n2 i f | n2 ch | n2 |]; try done.
    + destruct H2 as (_ & _ & ? & _). congruence.
    + destruct H2 as (_ & ? & _). congruence.
    + by destruct H2 as (-> & _).
Qed.

(** X13: a new name that is the name the host already has is not a
    rename: when the first fetch finds a host whose [hostId] is the given
    [new_name], the run makes no rename call. *)
Theorem rename_skipped_for_current_name
    (p : params) (r : remote) (h : host) (ev : event) :
  fetched (serve r (get_host_call (host_name p))).2 = Some h →
  new_name p = Some (hostId h) →
  ev ∈ (perform_module_operation serve p r).2 →
  ∀ n new, ev.1 ≠ modify_host_call n (new_name_kw new).
Proof.
  intros Hfound Hnew Hev%licensed_in_log n new E. unfold licensed in Hev.
  rewrite E, Hfound in Hev. destruct Hev as (_ & _ & _ & Hn & _ & Hne).
  rewrite Hnew in Hn. injection Hn as <-. by apply (Hne h).
Qed.

Lemma unlicensed_not_mutated p found t :
  Forall (licensed p found) t →
  (∀ ev, licensed p found ev → mutation ev.1 = false) →
  mutated t = false.
Proof.
  intros Hall Hno. unfold mutated. induction Hall as [|ev t Hev _ IH]; [done |].
  simpl. by rewrite (Hno ev Hev), IH.
Qed.

(** X14: deleting a host that does not exist is not a change.  With the
    desired state absent and no host found, a run that ends through
    [exit_json] reports [changed] false and no host details, and it made
    no call that changes the array. *)
Theorem absent_host_stays_absent
    (p : params) (r : remote) (ch : bool) (d : details) :
  state p = absent →
  fetched (serve r (get_host_call (host_name p))).2 = None →
  (perform_module_operation serve p r).1.1 = exit_json ch d →
  ch = false ∧ d = EmptyDict
  ∧ mutated (perform_module_operation serve p r).2 = false.
Proof.
  intros Hstate Hfound Hexit.
  pose proof (perform_module_operation_summary serve p r) as Hsum.
  rewrite Hexit in Hsum. simpl in Hsum. destruct Hsum as (-> & _ & Hd).
  assert (mutated (perform_module_operation serve p r).2 = false) as Hmut.
  { eapply unlicensed_not_mutated; [apply licensed_calls_of_run |].
    rewrite Hfound. intros ev Hev. unfold licensed in Hev.
    destruct ev.1 as [n | n i f | n c | n |]; try done.
    - destruct Hev as (_ & _ & ? & _). congruence.
    - destruct Hev as (_ & _ & [? ?] & _). done.
    - destruct Hev as (_ & _ & [? ?]). done. }
  split; [done |]. split; [| done].
  by apply (details_of_empty p d _ Hd).
Qed.

(** X15: creating is a change.  With the desired state present, a name
    that is not empty and no host found, a run that ends through
    [exit_json] reports [changed] true. *)
Theorem created_host_is_a_change
    (p : params) (r : remote) (ch : bool) (d : details) :
  state p = present → host_name p ≠ "" →
  fetched (serve r (get_host_call (host_name p))).2 = None →
  (perform_module_operation serve p r).1.1 = exit_json ch d →
  ch = true.
Proof.
  intros Hstate Hname Hfound Hexit.
  pose proof (perform_module_operation_summary serve p r) as Hsum.
  rewrite Hexit in Hsum. simpl in Hsum. destruct Hsum as (-> & _ & _).
  destruct (run_creates_when_not_found serve p r Hstate Hname) as [rest ->].
  - rewrite get_host_unfold. simpl. unfold fetched in Hfound. by rewrite Hfound.
  - reflexivity.
Qed.

End Exclusive.

Lemma calls_are_licensed_witness :
  licensed
    (Params "H1" (Some ["iqn.a"]) present (Some present_in_host) None None)
    None
    (create_host_call "H1" (Some ["iqn.a"]) None, Returned None).
Proof.
  apply (calls_are_licensed array_serve
           (Params "H1" (Some ["iqn.a"]) present (Some present_in_host)
                   None None) empty_array).
  apply (list_elem_of_lookup_2 _ 1). vm_compute. reflexivity.
Defined.

Lemma absent_run_only_deletes_witness :
  let ev := (delete_host_call "H1", Raised "host is part of a masking view") in
  ev.1 = get_host_call "H1" ∨ ev.1 = delete_host_call "H1"
  ∨ ev.1 = close_connection.
Proof.
  apply (absent_run_only_deletes array_serve
           (Params "H1" (Some ["iqn.b"]) absent (Some present_in_host)
                   (Some [("scsi_3", PyBool true)]) (Some "H2"))
           masked_array).
  - reflexivity.
  - apply (list_elem_of_lookup_2 _ 1). vm_compute. reflexivity.
Defined.

Lemma steps_are_exclusive_witness :
  (delete_host_call "H1", Raised "host is part of a masking view").1
  = delete_host_call "H1".
Proof.
  refine (proj2 (proj2 (steps_are_exclusive array_serve
           (Params "H1" (Some ["iqn.b"]) absent (Some present_in_host)
                   None None)
           masked_array
           (delete_host_call "H1", Raised "host is part of a masking view")
           (delete_host_call "H1", Raised "host is part of a masking view")
           _ _)) "H1" eq_refl eq_refl).
  - apply (list_elem_of_lookup_2 _ 1). vm_compute. reflexivity.
  - apply (list_elem_of_lookup_2 _ 1). vm_compute. reflexivity.
Defined.

Lemma rename_skipped_for_current_name_witness :
  (get_host_call "H1", Returned (Some host_H1)).1
  ≠ modify_host_call "H1" (new_name_kw "H1").
Proof.
  apply (rename_skipped_for_current_name array_serve
           (Params "H1" None present None None (Some "H1"))
           masked_array host_H1).
  - reflexivity.
  - reflexivity.
  - apply (list_elem_of_lookup_2 _ 0). vm_compute. reflexivity.
Defined.

Lemma absent_host_stays_absent_witness :
  false = false ∧ EmptyDict = EmptyDict
  ∧ mutated (run_on_array (Params "H1" None absent None None None)
               empty_array).2 = false.
Proof.
  apply (absent_host_stays_absent array_serve
           (Params "H1" None absent None None None) empty_array).
  - reflexivity.
  - reflexivity.
  - vm_compute. reflexivity.
Defined.

Lemma created_host_is_a_change_witness : true = true.
Proof.
  apply (created_host_is_a_change array_serve
           (Params "H1" None present None None None) empty_array true
           (Fetched (Some (Host "H1" None "" "" false)))).
  - reflexivity.
  - discriminate.
  - reflexivity.
  - vm_compute. reflexivity.
Defined.

(** ** The steps on their own *)

Section Steps.
Context {remote : Type}.
Variable serve : remote → request → remote * reply.

(** X16: adding initiators that the host already has is not a change.
    When every requested initiator is among those of the fetched host (in
    particular when none is requested), [add_host_initiators] returns
    false after its fetch and calls nothing else. *)
Theorem add_present_initiators_is_noop
    (name : string) (inits : list string) (r : remote) :
  (∀ x, x ∈ inits →
        x ∈ existing_initiators (fetched (serve r (get_host_call name)).2)) →
  add_host_initiators serve name inits r
  = (Value false, (serve r (get_host_call name)).1,
     [(get_host_call name, (serve r (get_host_call name)).2)]).
Proof.
  intros Hsub. unfold add_host_initiators.
  rewrite bind_unfold, get_host_unfold. unfold fetched in Hsub.
  set (ex := existing_initiators _) in *.
  destruct (_ && _); [done |].
  assert (_get_add_initiators ex inits = []) as ->; [| done].
  unfold _get_add_initiators.
  replace (list_to_set (ex ++ inits)%list ∖ list_to_set ex) with (∅ : gset string).
  - apply elements_empty.
  - apply set_eq. intros x.
    rewrite elem_of_difference, !elem_of_list_to_set, elem_of_app.
    split; [by intros ?%elem_of_empty |].
    intros [[Hy | Hy] Hno]; [done |]. destruct Hno. by apply Hsub.
Qed.

(** X17: a requested initiator that the host lacks is added.  When some
    requested initiator is not among those of the fetched host,
    [add_host_initiators] follows its fetch by one modify call whose list
    is without duplicates and holds exactly the requested initiators that
    the host lacks; it returns true when the call returns and ends in
    [fail_json] when it raises. *)
Theorem add_missing_initiators_calls
    (name : string) (inits : list string) (r : remote) (x : string) :
  x ∈ inits →
  x ∉ existing_initiators (fetched (serve r (get_host_call name)).2) →
  ∃ l o r' t,
    add_host_initiators serve name inits r
    = (o, r',
       (get_host_call name, (serve r (get_host_call name)).2)
       :: (modify_host_call name (add_init_list l),
           (serve (serve r (get_host_call name)).1
                  (modify_host_call name (add_init_list l))).2)
       :: t)
    ∧ NoDup l
    ∧ (∀ y, y ∈ l
            ↔ y ∈ inits
              ∧ y ∉ existing_initiators
                      (fetched (serve r (get_host_call name)).2))
    ∧ match (serve (serve r (get_host_call name)).1
                   (modify_host_call name (add_init_list l))).2 with
      | Returned _ => o = Value true ∧ t = []
      | Raised _ => ∃ msg, o = fail_json msg
      end.
Proof.
  intros Hx Hnot. unfold add_host_initiators.
  rewrite bind_unfold, get_host_unfold. unfold fetched in *.
  set (ex := existing_initiators _) in *.
  set (r1 := (serve r (get_host_call name)).1).
  set (l := _get_add_initiators ex inits).
  assert (∀ y, y ∈ l ↔ y ∈ inits ∧ y ∉ ex) as Hl.
  { intros y. unfold l, _get_add_initiators.
    rewrite elem_of_elements, elem_of_difference, !elem_of_list_to_set,
      elem_of_app. tauto. }
  rewrite (bool_decide_eq_false_2 (_ ⊆ _)), andb_false_r.
  2:{ intros Hsub. apply Hnot.
      assert (x ∈ (list_to_set ex : gset string)) as Hex
        by (apply Hsub; by apply elem_of_list_to_set).
      by apply elem_of_list_to_set in Hex. }
  assert ((0 <? List.length l)%nat = true) as ->.
  { destruct l as [|y l'] eqn:El; [| done].
    exfalso. eapply not_elem_of_nil, Hl. eauto. }
  rewrite bind_unfold, call_unfold.
  exists l. destruct (serve r1 (modify_host_call name (add_init_list l)))
    as [r2 [h | e]]; simpl.
  - eexists _, _, _. split; [done |]. split; [apply NoDup_elements |].
    split; [done |]. done.
  - unfold show_error_exit. rewrite bind_unfold, call_unfold. simpl.
    eexists _, _, _. split; [done |]. split; [apply NoDup_elements |].
    split; [done |]. by eexists.
Qed.

(** X18: removing initiators that the host does not have is not a change.
    When no requested initiator is among those of the fetched host (in
    particular when the host has none), [remove_host_initiators] returns
    false after its fetch and calls nothing else. *)
Theorem remove_absent_initiators_is_noop
    (name : string) (inits : list string) (r : remote) :
  (∀ x, x ∈ inits →
        x ∉ existing_initiators (fetched (serve r (get_host_call name)).2)) →
  remove_host_initiators serve name inits r
  = (Value false, (serve r (get_host_call name)).1,
     [(get_host_call name, (serve r (get_host_call name)).2)]).
Proof.
  intros Hnone. unfold remove_host_initiators.
  rewrite bind_unfold, get_host_unfold. unfold fetched in Hnone.
  set (ex := existing_initiators _) in *.
  case_bool_decide; [done |].
  assert (_get_remove_initiators ex inits = []) as ->; [| done].
  unfold _get_remove_initiators.
  replace (list_to_set ex ∩ list_to_set inits) with (∅ : gset string).
  - apply elements_empty.
  - apply set_eq. intros x.
    rewrite elem_of_intersection, !elem_of_list_to_set.
    split; [by intros ?%elem_of_empty |]. intros [? ?]. by destruct (Hnone x).
Qed.

(** X19: a requested initiator that the host has is removed.  When some
    requested initiator is among those of the fetched host,
    [remove_host_initiators] follows its fetch by one modify call whose
    list is without duplicates and holds exactly the initiators of the
    host that are requested. *)
Theorem remove_present_initiators_calls
    (name : string) (inits : list string) (r : remote) (x : string) :
  x ∈ inits →
  x ∈ existing_initiators (fetched (serve r (get_host_call name)).2) →
  ∃ l o r' t,
    remove_host_initiators serve name inits r
    = (o, r',
       (get_host_call name, (serve r (get_host_call name)).2)
       :: (modify_host_call name (remove_init_list l),
           (serve (serve r (get_host_call name)).1
                  (modify_host_call name (remove_init_list l))).2)
       :: t)
    ∧ NoDup l
    ∧ (∀ y, y ∈ l
            ↔ y ∈ existing_initiators
                    (fetched (serve r (get_host_call name)).2)
              ∧ y ∈ inits)
    ∧ match (serve (serve r (get_host_call name)).1
                   (modify_host_call name (remove_init_list l))).2 with
      | Returned _ => o = Value true ∧ t = []
      | Raised _ => ∃ msg, o = fail_json msg
      end.
Proof.
  intros Hx Hin. unfold remove_host_initiators.
  rewrite bind_unfold, get_host_unfold. unfold fetched in *.
  set (ex := existing_initiators _) in *.
  set (r1 := (serve r (get_host_call name)).1).
  set (l := _get_remove_initiators ex inits).
  assert (∀ y, y ∈ l ↔ y ∈ ex ∧ y ∈ inits) as Hl.
  { intros y. unfold l, _get_remove_initiators.
    by rewrite elem_of_elements, elem_of_intersection, !elem_of_list_to_set. }
  rewrite (bool_decide_eq_false_2 (ex = [])).
  2:{ intros E. rewrite E in Hin. by apply elem_of_nil in Hin. }
  assert ((0 <? List.length l)%nat = true) as ->.
  { destruct l as [|y l'] eqn:El; [| done].
    exfalso. eapply not_elem_of_nil, Hl. eauto. }
  rewrite bind_unfold, call_unfold.
  exists l. destruct (serve r1 (modify_host_call name (remove_init_list l)))
    as [r2 [h | e]]; simpl.
  - eexists _, _, _. split; [done |]. split; [apply NoDup_elements |].
    split; [done |]. done.
  - unfold show_error_exit. rewrite bind_unfold, call_unfold. simpl.
    eexists _, _, _. split; [done |]. split; [apply NoDup_elements |].
    split; [done |]. by eexists.
Qed.

End Steps.

Section FlagStep.
Context {remote : Type}.
Variable serve : remote → request → remote * reply.


(** X21: a flag that differs is set, with the whole flag set.  For
    received flags with ASCII keys and a fetched host with ASCII reports:
    when some key (the only one with its lower-cased name) asks for
    another state than the host reports, [modify_host_flags] follows its
    fetch by one modify call that carries the complete overlay of the
    received flags on the rebuilt baseline. *)
Theorem differing_flag_calls
    (name : string) (rf : pydict) (r : remote) (h : host)
    (k : string) (v : pyval) :
  Forall ascii_only (py_keys rf) →
  ascii_only (enabled_flags h) →
  ascii_only (disabled_flags h) →
  fetched (serve r (get_host_call name)).2 = Some h →
  py_get k rf = Some v →
  (∀ k', k' ∈ py_keys rf → lower k' = lower k → k' = k) →
  _recreate_host_flag_dict h ∅ !! lower k ≠ Some (overlay_rule k v) →
  ∃ o r' t,
    modify_host_flags serve name rf r
    = (o, r',
       (get_host_call name, (serve r (get_host_call name)).2)
       :: (modify_host_call name
             (host_flag_dict (overlay rf (_recreate_host_flag_dict h ∅))),
           (serve (serve r (get_host_call name)).1
              (modify_host_call name
                 (host_flag_dict
                    (overlay rf (_recreate_host_flag_dict h ∅))))).2)
       :: t)
    ∧ match (serve (serve r (get_host_call name)).1
               (modify_host_call name
                  (host_flag_dict
                     (overlay rf (_recreate_host_flag_dict h ∅))))).2 with
      | Returned _ => o = Value true ∧ t = []
      | Raised _ => ∃ msg, o = fail_json msg
      end.
Proof.
  intros _ _ _ Hfound Hv Huniq Hdiff. unfold modify_host_flags.
  rewrite bind_unfold, get_host_unfold. unfold fetched in Hfound.
  rewrite Hfound.
  set (B := _recreate_host_flag_dict h ∅) in *.
  rewrite bool_decide_eq_false_2.
  2:{ intros E. apply Hdiff. rewrite <- E at 1.
      by apply overlay_lookup_folded. }
  rewrite bind_unfold, call_unfold.
  destruct (serve _ (modify_host_call name (host_flag_dict (overlay rf B))))
    as [r2 [h' | e]]; simpl.
  - by eexists _, _, _.
  - unfold show_error_exit. rewrite bind_unfold, call_unfold. simpl.
    eexists _, _, _. split; [done |]. by eexists.
Qed.

End FlagStep.

Lemma add_present_initiators_is_noop_witness :
  add_host_initiators array_serve "H1" ["iqn.a"; "iqn.a"] masked_array
  = (Value false, masked_array,
     [(get_host_call "H1", Returned (Some host_H1))]).
Proof.
  apply (add_present_initiators_is_noop array_serve "H1" ["iqn.a"; "iqn.a"]
           masked_array).
  intros x Hx.
  repeat (apply elem_of_cons in Hx as [-> | Hx]; [compute_done |]).
  by apply elem_of_nil in Hx.
Defined.

Lemma add_missing_initiators_calls_witness :
  ∃ l o r' t,
    add_host_initiators array_serve "H1" ["iqn.a"; "iqn.b"] masked_array
    = (o, r',
       (get_host_call "H1", Returned (Some host_H1))
       :: (modify_host_call "H1" (add_init_list l), Returned None) :: t)
    ∧ NoDup l
    ∧ (∀ y, y ∈ l ↔ y ∈ ["iqn.a"; "iqn.b"] ∧ y ∉ ["iqn.a"]).
Proof.
  destruct (add_missing_initiators_calls array_serve "H1" ["iqn.a"; "iqn.b"]
              masked_array "iqn.b")
    as (l & o & r' & t & Hrun & Hnd & Hl & _).
  - compute_done.
  - compute_done.
  - exists l, o, r', t. split; [| split; [exact Hnd | exact Hl]].
    rewrite Hrun. reflexivity.
Defined.

Lemma remove_absent_initiators_is_noop_witness :
  remove_host_initiators array_serve "H1" ["iqn.z"] masked_array
  = (Value false, masked_array,
     [(get_host_call "H1", Returned (Some host_H1))]).
Proof.
  apply (remove_absent_initiators_is_noop array_serve "H1" ["iqn.z"]
           masked_array).
  intros x Hx.
  repeat (apply elem_of_cons in Hx as [-> | Hx]; [compute_done |]).
  by apply elem_of_nil in Hx.
Defined.

Lemma remove_present_initiators_calls_witness :
  ∃ l o r' t,
    remove_host_initiators array_serve "H1" ["iqn.z"; "iqn.a"] masked_array
    = (o, r',
       (get_host_call "H1", Returned (Some host_H1))
       :: (modify_host_call "H1" (remove_init_list l), Returned None) :: t)
    ∧ NoDup l
    ∧ (∀ y, y ∈ l ↔ y ∈ ["iqn.a"] ∧ y ∈ ["iqn.z"; "iqn.a"]).
Proof.
  destruct (remove_present_initiators_calls array_serve "H1"
              ["iqn.z"; "iqn.a"] masked_array "iqn.a")
    as (l & o & r' & t & Hrun & Hnd & Hl & _).
  - compute_done.
  - compute_done.
  - exists l, o, r', t. split; [| split; [exact Hnd | exact Hl]].
    rewrite Hrun. reflexivity.
Defined.


Lemma differing_flag_calls_witness :
  ∃ o r' t,
    modify_host_flags array_serve "H1" [("SCSI_3", PyBool true)] masked_array
    = (o, r',
       (get_host_call "H1", Returned (Some host_H1))
       :: (modify_host_call "H1"
             (host_flag_dict
                (overlay [("SCSI_3", PyBool true)]
                         (_recreate_host_flag_dict host_H1 ∅))),
           Returned None)
       :: t).
Proof.
  destruct (differing_flag_calls array_serve "H1" [("SCSI_3", PyBool true)]
              masked_array host_H1 "SCSI_3" (PyBool true))
    as (o & r' & t & Hrun & _).
  - compute_done.
  - compute_done.
  - compute_done.
  - reflexivity.
  - reflexivity.
  - intros k' Hk' _. apply elem_of_cons in Hk' as [-> | Hk']; [done |].
    by apply elem_of_nil in Hk'.
  - vm_compute. discriminate.
  - exists o, r', t. rewrite Hrun. reflexivity.
Defined.
